(** * sample_reads.py: length filter and random subsampling of FASTA/FASTQ reads

    A shallow embedding of [detect_format] and [process_file] of
    [sample_reads.py], and the properties of the filter/sample/emit pipeline.

    Python floats are IEEE binary64 numbers, modelled by Rocq's primitive
    floats; Python integers are unbounded, modelled by [Z]; strings are
    [string].  What the script takes from outside (the files it opens, the
    [pyfastx] record readers, the [random] module and the float formatting
    of f-strings) is a parameter of the development. *)

From Stdlib Require Import ZArith Floats Lia Ascii DecimalString.
From stdpp Require Import base option list strings gmap.

Local Open Scope Z_scope.

(** ** Exceptions *)

(** The exceptions of the run.  [detect_format] raises a [ValueError] itself;
    everything else is raised by the runtime ([open], [gzip.open]) or by
    [pyfastx].  All of them derive from [Exception]. *)
Inductive exn : Type :=
  | ValueError (msg : string)
  | OSError (msg : string)
  | RuntimeError (msg : string)
  | ZeroDivisionError (msg : string).

(** [str(e)], as the handler's f-string prints it *)
Definition str (e : exn) : string :=
  match e with
  | ValueError msg | OSError msg | RuntimeError msg | ZeroDivisionError msg => msg
  end.

Inductive outcome (A : Type) : Type :=
  | Ok (a : A)
  | Raise (e : exn).
Arguments Ok {A} a.
Arguments Raise {A} e.

(** ** Record readers *)

(** What iterating a [pyfastx] reader does: it ends ([Stop]), yields a record
    and goes on ([Next]), or raises while decoding ([Broken]). *)
Inductive records (R : Type) : Type :=
  | Stop
  | Next (r : R) (rest : records R)
  | Broken (e : exn).
Arguments Stop {R}.
Arguments Next {R} r rest.
Arguments Broken {R} e.

(** the records a reader hands to the loop body before it ends or raises *)
Fixpoint yielded {R : Type} (rs : records R) : list R :=
  match rs with
  | Stop | Broken _ => []
  | Next r rest => r :: yielded rest
  end.

(** the exception that ends the iteration, if any *)
Fixpoint failure {R : Type} (rs : records R) : option exn :=
  match rs with
  | Stop => None
  | Next _ rest => failure rest
  | Broken e => Some e
  end.

(** a reader that yields the records of a list and then ends *)
Fixpoint of_list {R : Type} (l : list R) : records R :=
  match l with
  | [] => Stop
  | r :: l => Next r (of_list l)
  end.

Definition fastq_record : Type := string * string * string.
Definition fasta_record : Type := string * string.

(** ** Strings *)

Definition newline : string := String (Ascii.ascii_of_nat 10) EmptyString.

(** [len(s)] *)
Definition len (s : string) : Z := Z.of_nat (String.length s).

(** [f"{n}"] for an integer *)
Definition str_int (n : Z) : string := NilZero.string_of_int (Z.to_int n).

(** [s * n] *)
Fixpoint repeat_str (s : string) (n : nat) : string :=
  match n with
  | O => EmptyString
  | S n => s +:+ repeat_str s n
  end.

Definition upper_char (c : Ascii.ascii) : Ascii.ascii :=
  let n := Ascii.nat_of_ascii c in
  if ((97 <=? n) && (n <=? 122))%nat then Ascii.ascii_of_nat (n - 32) else c.

(** [s.upper()], on ASCII text *)
Fixpoint upper (s : string) : string :=
  match s with
  | EmptyString => EmptyString
  | String c s => String (upper_char c) (upper s)
  end.

(** [s.endswith(suffix)] *)
Definition endswith (s suffix : string) : bool :=
  let n := String.length s in
  let k := String.length suffix in
  if (k <=? n)%nat then String.eqb (String.substring (n - k) k s) suffix else false.

(** [f.read(1)] on a freshly opened text stream: the first character, or the
    empty string at end of input *)
Definition read1 (text : string) : string :=
  match text with
  | EmptyString => EmptyString
  | String c _ => String c EmptyString
  end.

(** [s.splitlines()], for texts whose only line break is the newline *)
Fixpoint lines (s : string) : list string :=
  match s with
  | EmptyString => []
  | String c s =>
      if Ascii.eqb c (Ascii.ascii_of_nat 10) then EmptyString :: lines s
      else match lines s with
           | [] => [String c EmptyString]
           | l :: ls => String c l :: ls
           end
  end.

(** the concatenation of a list of texts *)
Definition join (l : list string) : string := foldr String.append EmptyString l.

Fixpoint has_newline (s : string) : bool :=
  match s with
  | EmptyString => false
  | String c s => Ascii.eqb c (Ascii.ascii_of_nat 10) || has_newline s
  end.

(** ** The environment of a run *)

(** The files and readers the script sees.  [open_rt] and [gzip_open_rt] give
    the decoded text of a file opened in mode ["rt"], or the exception that
    opening or reading it raises; [Fastq] and [Fasta] are the [pyfastx]
    constructors called with [build_index=False]; [open_w] tells whether
    [open(path, "w")] succeeds. *)
Record environment : Type := {
  open_rt : string -> outcome string;
  gzip_open_rt : string -> outcome string;
  Fastq : string -> outcome (records fastq_record);
  Fasta : string -> outcome (records fasta_record);
  open_w : string -> outcome unit
}.

(** ** detect_format *)

Definition detect_format (env : environment) (filename : string) : outcome string :=
  let opener := if endswith filename ".gz" then gzip_open_rt env else open_rt env in
  match opener filename with
  | Raise e => Raise e
  | Ok text =>
      let first_char := read1 text in
      if String.eqb first_char ">" then Ok "fasta"
      else if String.eqb first_char "@" then Ok "fastq"
      else Raise (ValueError "Cannot detect file format (not FASTA/FASTQ)")
  end.

(** ** Command-line arguments *)

Module Args.
Record t : Type := mk {
  input : string;
  output : string;
  percent : float;
  length : Z;
  seed : Z
}.
End Args.

(** ** Integer division *)

(** an integer as an unrounded binary number *)
Definition Z2SF (n : Z) : spec_float :=
  match n with
  | Z0 => S754_zero false
  | Zpos p => S754_finite false p 0
  | Zneg p => S754_finite true p 0
  end.

(** [a / b] on Python integers: the quotient rounded to the nearest float,
    [ZeroDivisionError] on a zero divisor.  (The [OverflowError] of a quotient
    beyond the float range is not modelled.) *)
Definition truediv (a b : Z) : outcome float :=
  if b =? 0 then Raise (ZeroDivisionError "division by zero")
  else Ok (SF2Prim (SFdiv prec emax (Z2SF a) (Z2SF b))).

(** ** Successive states *)

(** [chain R a l]: [R] relates each element of [a :: l] to the next *)
Fixpoint chain {A : Type} (R : A -> A -> Prop) (a : A) (l : list A) : Prop :=
  match l with
  | [] => True
  | b :: l => R a b /\ chain R b l
  end.

(** ** The Python runtime *)

(** The [random] module (the state of the process-wide generator,
    [random.seed(n)] for an integer [n], and [random.random()], which returns
    the next float and the generator's new state) and the float formatting of
    f-strings ([f"{x}"] and [f"{x:.2f}"]). *)
Class Runtime : Type := {
  rng_state : Type;
  random_seed : Z -> rng_state;
  random_random : rng_state -> float * rng_state;
  repr_float : float -> string;
  format_2f : float -> string
}.

(** the floats [random.random()] may return: [0.0 <= r < 1.0] *)
Definition unit_interval (py : Runtime) : Prop :=
  forall g : rng_state,
    (0 <=? (random_random g).1)%float = true /\ ((random_random g).1 <? 1)%float = true.

(** ** The run *)

Section Run.

Context {py : Runtime}.

(** *** State of the loop *)

(** The variables the loop updates: the three counters, the text written to
    [fout] so far, and the state of the random generator. *)
Record state : Type := mkState {
  total_reads : Z;
  passed_length_filter : Z;
  retained_reads : Z;
  fout : string;
  rng : rng_state
}.

(** A statement maps a state to a result, the state it leaves, and the states
    the run went through while executing it, one after each assignment, write
    and draw. *)
Definition M (A : Type) : Type := state -> A * state * list state.

Definition ret {A : Type} (a : A) : M A := fun s => (a, s, []).

Definition bind {A B : Type} (m : M A) (f : A -> M B) : M B :=
  fun s =>
    let '(a, s1, t1) := m s in
    let '(b, s2, t2) := f a s1 in
    (b, s2, t1 ++ t2).

Notation "x <- c1 ;; c2" := (bind c1 (fun x => c2))
  (at level 100, c1 at next level, right associativity).
Notation "c1 ;; c2" := (bind c1 (fun _ => c2))
  (at level 100, right associativity).

Definition assign (f : state -> state) : M unit := fun s => (tt, f s, [f s]).

Definition result {A : Type} (m : M A) (s : state) : A := (m s).1.1.
Definition final {A : Type} (m : M A) (s : state) : state := (m s).1.2.
Definition trace {A : Type} (m : M A) (s : state) : list state := (m s).2.

(** [total_reads += 1] *)
Definition incr_total_reads : M unit :=
  assign (fun s => mkState (total_reads s + 1) (passed_length_filter s) (retained_reads s) (fout s) (rng s)).

(** [passed_length_filter += 1] *)
Definition incr_passed_length_filter : M unit :=
  assign (fun s => mkState (total_reads s) (passed_length_filter s + 1) (retained_reads s) (fout s) (rng s)).

(** [retained_reads += 1] *)
Definition incr_retained_reads : M unit :=
  assign (fun s => mkState (total_reads s) (passed_length_filter s) (retained_reads s + 1) (fout s) (rng s)).

(** [fout.write(text)] *)
Definition fout_write (text : string) : M unit :=
  assign (fun s => mkState (total_reads s) (passed_length_filter s) (retained_reads s) (fout s +:+ text) (rng s)).

(** [random.random()] *)
Definition random : M float :=
  fun s =>
    let '(r, g) := random_random (rng s) in
    let s' := mkState (total_reads s) (passed_length_filter s) (retained_reads s) (fout s) g in
    (r, s', [s']).

(** [if b: m] *)
Definition when (b : bool) (m : M unit) : M unit := if b then m else ret tt.

(** [f"@{name}\n{seq}\n+\n{qual}\n"] *)
Definition fastq_entry (name seq qual : string) : string :=
  "@" +:+ name +:+ newline +:+ seq +:+ newline +:+ "+" +:+ newline +:+ qual +:+ newline.

(** [f">{name}\n{seq}\n"] *)
Definition fasta_entry (name seq : string) : string :=
  ">" +:+ name +:+ newline +:+ seq +:+ newline.

(** *** The two loops *)

(** body of [for name, seq, qual in reader] *)
Definition body_fastq (min_len : Z) (probability : float) (rec : fastq_record) : M unit :=
  let '(name, seq, qual) := rec in
  incr_total_reads ;;
  when (len seq >=? min_len) (
    incr_passed_length_filter ;;
    r <- random ;;
    when (r <? probability)%float (
      fout_write (fastq_entry name seq qual) ;;
      incr_retained_reads)).

(** body of [for name, seq in reader] *)
Definition body_fasta (min_len : Z) (probability : float) (rec : fasta_record) : M unit :=
  let '(name, seq) := rec in
  incr_total_reads ;;
  when (len seq >=? min_len) (
    incr_passed_length_filter ;;
    r <- random ;;
    when (r <? probability)%float (
      fout_write (fasta_entry name seq) ;;
      incr_retained_reads)).

(** [for rec in reader: body], ended by the reader's end or by the exception
    it raises *)
Fixpoint for_each {R : Type} (reader : records R) (body : R -> M unit) : M (outcome unit) :=
  match reader with
  | Stop => ret (Ok tt)
  | Next rec rest => body rec ;; for_each rest body
  | Broken e => ret (Raise e)
  end.

(** *** The process and its files *)

(** What the run leaves behind: the files written (path to content), the
    lines printed on the two streams, and the state of the generator.  The
    input is read through the environment. *)
Record world : Type := mkWorld {
  files : gmap string string;
  stdout : list string;
  stderr : list string;
  random_state : rng_state
}.

(** how [process_file] ends: it returns (the script then exits with code 0),
    calls [sys.exit(code)], or lets an exception escape *)
Inductive exit : Type :=
  | Returned
  | SysExit (code : Z)
  | Uncaught (e : exn).

Definition exit_code (x : exit) : Z :=
  match x with
  | Returned => 0
  | SysExit code => code
  | Uncaught _ => 1
  end.

(** the counters at zero, nothing written yet *)
Definition initial (g : rng_state) : state := mkState 0 0 0 EmptyString g.

(** the reader built for the detected format *)
Definition make_reader (env : environment) (filetype input : string)
  : outcome (records fastq_record + records fasta_record) :=
  if String.eqb filetype "fastq" then
    match Fastq env input with
    | Ok reader => Ok (inl reader)
    | Raise e => Raise e
    end
  else
    match Fasta env input with
    | Ok reader => Ok (inr reader)
    | Raise e => Raise e
    end.

(** the loop over the reader; the second test of [filetype] selects the loop
    of the reader the first test built *)
Definition loop (min_len : Z) (probability : float)
    (reader : records fastq_record + records fasta_record) : M (outcome unit) :=
  match reader with
  | inl reader => for_each reader (body_fastq min_len probability)
  | inr reader => for_each reader (body_fasta min_len probability)
  end.

(** [open(args.output, "w")]: the file is created, or truncated *)
Definition opened (path : string) (w : world) : world :=
  mkWorld (<[path := EmptyString]> (files w)) (stdout w) (stderr w) (random_state w).

(** leaving the [with] block, by its end or by an exception: the buffered
    text reaches the file *)
Definition closed (path : string) (st : state) (w : world) : world :=
  mkWorld (<[path := fout st]> (files w)) (stdout w) (stderr w) (rng st).

(** The [try] block.  It gives the detected format and the final counters, or
    the exception that left it. *)
Definition try_block (env : environment) (args : Args.t) (min_len : Z) (probability : float)
    (w : world) : outcome (string * state) * world :=
  match detect_format env (Args.input args) with
  | Raise e => (Raise e, w)
  | Ok filetype =>
      match make_reader env filetype (Args.input args) with
      | Raise e => (Raise e, w)
      | Ok reader =>
          match open_w env (Args.output args) with
          | Raise e => (Raise e, w)
          | Ok _ =>
              let w1 := opened (Args.output args) w in
              let run := loop min_len probability reader in
              let s0 := initial (random_state w1) in
              let st := final run s0 in
              let w2 := closed (Args.output args) st w1 in
              match result run s0 with
              | Raise e => (Raise e, w2)
              | Ok _ => (Ok (filetype, st), w2)
              end
          end
      end
  end.

(** the lines of the statistics that are always printed *)
Definition statistics (args : Args.t) (min_len : Z) (filetype : string) (st : state)
  : list string :=
  [ repeat_str "-" 40;
    "Processing Complete";
    "Input type:                    " +:+ upper filetype;
    "Total Raw Reads:               " +:+ str_int (total_reads st);
    "Reads >= " +:+ str_int min_len +:+ "bp:                " +:+ str_int (passed_length_filter st);
    "Retained Reads (" +:+ repr_float (Args.percent args) +:+ "% target): "
      +:+ str_int (retained_reads st) ].

(** The report: the lines printed, and the exception that interrupts the
    printing, if any. *)
Definition report (args : Args.t) (min_len : Z) (filetype : string) (st : state)
  : list string * option exn :=
  let printed := statistics args min_len filetype st in
  if total_reads st >? 0 then
    match truediv (retained_reads st) (total_reads st) with
    | Raise e => (printed, Some e)
    | Ok ratio =>
        let actual_ratio := (ratio * 100)%float in
        (printed ++ [ "Actual Retention Ratio:        " +:+ format_2f actual_ratio +:+ "%";
                      repeat_str "-" 40 ], None)
    end
  else (printed ++ [ repeat_str "-" 40 ], None).

Definition print_stdout (printed : list string) (w : world) : world :=
  mkWorld (files w) (stdout w ++ printed) (stderr w) (random_state w).

Definition print_stderr (line : string) (w : world) : world :=
  mkWorld (files w) (stdout w) (stderr w ++ [line]) (random_state w).

(** [if args.seed != 0: random.seed(args.seed)] *)
Definition seeded (args : Args.t) (w : world) : world :=
  if negb (Args.seed args =? 0)
  then mkWorld (files w) (stdout w) (stderr w) (random_seed (Args.seed args))
  else w.

Definition process_file (env : environment) (args : Args.t) (w : world) : exit * world :=
  let w := seeded args w in
  let probability := (Args.percent args / 100)%float in
  let min_len := Args.length args in
  match try_block env args min_len probability w with
  | (Raise e, w) => (SysExit 1, print_stderr ("Error: " +:+ str e) w)
  | (Ok (filetype, st), w) =>
      match report args min_len filetype st with
      | (printed, Some e) => (Uncaught e, print_stdout printed w)
      | (printed, None) => (Returned, print_stdout printed w)
      end
  end.

(** *** What the pipeline is to compute *)

(** What the loop uses of a record: its sequence, and the text written for it
    when it is retained. *)
Definition fastq_view (rec : fastq_record) : string * string :=
  let '(name, seq, qual) := rec in (seq, fastq_entry name seq qual).

Definition fasta_view (rec : fasta_record) : string * string :=
  let '(name, seq) := rec in (seq, fasta_entry name seq).

(** the records the loop sees, in the order of the input *)
Definition observed (reader : records fastq_record + records fasta_record)
  : list (string * string) :=
  match reader with
  | inl reader => map fastq_view (yielded reader)
  | inr reader => map fasta_view (yielded reader)
  end.

(** the exception that ends the loop, if any *)
Definition interrupted (reader : records fastq_record + records fasta_record) : option exn :=
  match reader with
  | inl reader => failure reader
  | inr reader => failure reader
  end.

(** the body of either loop, on what it uses of the record *)
Definition body (min_len : Z) (probability : float) (v : string * string) : M unit :=
  bind incr_total_reads (fun _ =>
  when (len v.1 >=? min_len) (
    bind incr_passed_length_filter (fun _ =>
    bind random (fun r =>
    when (r <? probability)%float (
      bind (fout_write v.2) (fun _ => incr_retained_reads)))))).

(** the states an iteration goes through *)
Definition counted (s : state) : state :=
  mkState (total_reads s + 1) (passed_length_filter s) (retained_reads s) (fout s) (rng s).
Definition passed (s : state) : state :=
  mkState (total_reads s + 1) (passed_length_filter s + 1) (retained_reads s) (fout s) (rng s).
Definition drawn (s : state) : state :=
  mkState (total_reads s + 1) (passed_length_filter s + 1) (retained_reads s) (fout s)
    (random_random (rng s)).2.
Definition written (text : string) (s : state) : state :=
  mkState (total_reads s + 1) (passed_length_filter s + 1) (retained_reads s) (fout s +:+ text)
    (random_random (rng s)).2.
Definition retained (text : string) (s : state) : state :=
  mkState (total_reads s + 1) (passed_length_filter s + 1) (retained_reads s + 1)
    (fout s +:+ text) (random_random (rng s)).2.

(** the first [n] floats of the generator, from state [g] *)
Fixpoint draws (n : nat) (g : rng_state) : list float :=
  match n with
  | O => []
  | S n => (random_random g).1 :: draws n (random_random g).2
  end.

(** the state of the generator after [n] draws *)
Fixpoint advance (n : nat) (g : rng_state) : rng_state :=
  match n with
  | O => g
  | S n => advance n (random_random g).2
  end.

(** the records that satisfy [length(sequence) >= min_len] *)
Definition qualifying (min_len : Z) (l : list (string * string)) : list (string * string) :=
  List.filter (fun v => min_len <=? len v.1) l.

(** The records to retain: the qualifying records are paired, in order, with
    the successive draws of the generator, and those whose draw is below
    [probability] are kept. *)
Definition kept (min_len : Z) (probability : float) (l : list (string * string))
    (g : rng_state) : list (string * string) :=
  let q := qualifying min_len l in
  map fst (List.filter (fun vr => (vr.2 <? probability)%float) (zip q (draws (length q) g))).

(** the state the loop leaves, from the records it has seen *)
Definition after (min_len : Z) (probability : float) (l : list (string * string))
    (s : state) : state :=
  mkState
    (total_reads s + Z.of_nat (length l))
    (passed_length_filter s + Z.of_nat (length (qualifying min_len l)))
    (retained_reads s + Z.of_nat (length (kept min_len probability l (rng s))))
    (fout s +:+ join (map snd (kept min_len probability l (rng s))))
    (advance (length (qualifying min_len l)) (rng s)).

(** The fatal errors of a run: the input cannot be read or is neither FASTA
    nor FASTQ, the reader cannot be built, the output cannot be opened, or a
    record cannot be decoded. *)
Inductive fatal (env : environment) (args : Args.t) (e : exn) : Prop :=
  | fatal_detection :
      detect_format env (Args.input args) = Raise e -> fatal env args e
  | fatal_reader (filetype : string) :
      detect_format env (Args.input args) = Ok filetype ->
      make_reader env filetype (Args.input args) = Raise e ->
      fatal env args e
  | fatal_output (filetype : string) (reader : records fastq_record + records fasta_record) :
      detect_format env (Args.input args) = Ok filetype ->
      make_reader env filetype (Args.input args) = Ok reader ->
      open_w env (Args.output args) = Raise e ->
      fatal env args e
  | fatal_record (filetype : string) (reader : records fastq_record + records fasta_record) :
      detect_format env (Args.input args) = Ok filetype ->
      make_reader env filetype (Args.input args) = Ok reader ->
      open_w env (Args.output args) = Ok tt ->
      interrupted reader = Some e ->
      fatal env args e.

(** a loop that ends at once on the exception [e]: no statement is executed
    and the state is left as it is *)
Definition body_stops (m : M (outcome unit)) (e : exn) (s : state) : Prop :=
  result m s = Raise e /\ final m s = s /\ trace m s = [].

(** the counters are ordered *)
Definition ordered (s : state) : Prop :=
  0 <= retained_reads s <= passed_length_filter s /\ passed_length_filter s <= total_reads s.

(** from one point of the run to the next, a counter keeps its value or
    grows by one *)
Definition counted_up (s s' : state) : Prop :=
  (total_reads s' = total_reads s \/ total_reads s' = total_reads s + 1) /\
  (passed_length_filter s' = passed_length_filter s \/
   passed_length_filter s' = passed_length_filter s + 1) /\
  (retained_reads s' = retained_reads s \/ retained_reads s' = retained_reads s + 1).

End Run.

(** ** A small generator and a small run, to exercise the definitions *)

Module Toy.

(** a generator that returns 0.25 and 0.75 in turn *)
Definition toy_seed (n : Z) : bool := Z.even n.
Definition toy_random (g : bool) : float * bool :=
  (if g then 0.25%float else 0.75%float, negb g).
Definition toy_repr (x : float) : string := "<float>".

#[global] Instance toy : Runtime := {|
  rng_state := bool;
  random_seed := toy_seed;
  random_random := toy_random;
  repr_float := toy_repr;
  format_2f := toy_repr
|}.

(** the text of a FASTA file *)
Definition fasta_text (l : list fasta_record) : string :=
  join (map (fun rec => fasta_entry rec.1 rec.2) l).

(** a FASTA input that holds the records of [l] *)
Definition fa (l : list fasta_record) : environment :=
  {| open_rt := fun _ => Ok (fasta_text l);
     gzip_open_rt := fun _ => Raise (OSError "Not a gzipped file");
     Fastq := fun _ => Raise (RuntimeError "not a fastq file");
     Fasta := fun _ => Ok (of_list l);
     open_w := fun _ => Ok tt |}.

Definition reads : list fasta_record :=
  [("r1", "ACGT"); ("r2", "AC"); ("r3", "ACGTA"); ("r4", "ACGTACGT")].

(** 50 percent of the reads of four bases or more, with seed 2 *)
Definition args : Args.t := Args.mk "in.fa" "out.fa" 50 4 2.

(** the same input, with an output that cannot be opened *)
Definition unwritable (l : list fasta_record) : environment :=
  {| open_rt := fun _ => Ok (fasta_text l);
     gzip_open_rt := fun _ => Raise (OSError "Not a gzipped file");
     Fastq := fun _ => Raise (RuntimeError "not a fastq file");
     Fasta := fun _ => Ok (of_list l);
     open_w := fun _ => Raise (OSError "Permission denied") |}.

(** a FASTQ input of two records, read from a file that fails after the first
    record has been decoded: the reader raises on its second step *)
Definition fq_read_error : environment :=
  {| open_rt := fun _ =>
       Ok (fastq_entry "q1" "ACGTAC" "IIIIII" +:+ fastq_entry "q2" "ACGT" "IIII");
     gzip_open_rt := fun _ => Raise (OSError "Not a gzipped file");
     Fastq := fun _ =>
       Ok (Next ("q1", "ACGTAC", "IIIIII") (Broken (OSError "Input/output error")));
     Fasta := fun _ => Raise (RuntimeError "not a fasta file");
     open_w := fun _ => Ok tt |}.

(** an empty input *)
Definition empty_input : environment :=
  {| open_rt := fun _ => Ok EmptyString;
     gzip_open_rt := fun _ => Raise (OSError "Not a gzipped file");
     Fastq := fun _ => Ok Stop;
     Fasta := fun _ => Ok Stop;
     open_w := fun _ => Ok tt |}.

(** no file written, nothing printed *)
Definition w0 : world := mkWorld ∅ [] [] false.

End Toy.

(** * Properties *)

(** ** Strings and lists *)

Lemma append_cons (c : Ascii.ascii) (s t : string) : String c s +:+ t = String c (s +:+ t).
Proof. reflexivity. Qed.

Lemma append_nil_r (s : string) : s +:+ EmptyString = s.
Proof. induction s as [|c s IH]; [reflexivity | now rewrite append_cons, IH]. Qed.

Lemma append_assoc (s t u : string) : (s +:+ t) +:+ u = s +:+ t +:+ u.
Proof. induction s as [|c s IH]; [reflexivity | now rewrite !append_cons, IH]. Qed.

Lemma lines_append_newline (s rest : string) :
  has_newline s = false -> lines (s +:+ newline +:+ rest) = s :: lines rest.
Proof.
  induction s as [|c s IH]; intros Hs.
  - reflexivity.
  - simpl in Hs. apply orb_false_iff in Hs as [Hc Hs].
    rewrite append_cons. simpl. rewrite Hc, (IH Hs). reflexivity.
Qed.

Lemma lines_fasta_entry (name seq rest : string) :
  has_newline name = false -> has_newline seq = false ->
  lines (fasta_entry name seq +:+ rest) = (">" +:+ name) :: seq :: lines rest.
Proof.
  intros Hn Hs. unfold fasta_entry. rewrite !append_assoc. rewrite <- (append_assoc ">" name).
  rewrite lines_append_newline by exact Hn.
  rewrite lines_append_newline by exact Hs. reflexivity.
Qed.

Lemma lines_fastq_entry (name seq qual rest : string) :
  has_newline name = false -> has_newline seq = false -> has_newline qual = false ->
  lines (fastq_entry name seq qual +:+ rest) = ("@" +:+ name) :: seq :: "+" :: qual :: lines rest.
Proof.
  intros Hn Hs Hq. unfold fastq_entry. rewrite !append_assoc. rewrite <- (append_assoc "@" name).
  rewrite lines_append_newline by exact Hn.
  rewrite lines_append_newline by exact Hs.
  rewrite (lines_append_newline "+") by reflexivity.
  rewrite lines_append_newline by exact Hq. reflexivity.
Qed.

Lemma default_last_cons {A : Type} (a b : A) (l : list A) :
  default a (last (b :: l)) = default b (last l).
Proof.
  revert a b. induction l as [|c l IH]; intros a b; [reflexivity|].
  rewrite last_cons_cons, (IH a c), (IH b c). reflexivity.
Qed.

Lemma chain_app {A : Type} (R : A -> A -> Prop) (a : A) (l1 l2 : list A) :
  chain R a (l1 ++ l2) <-> chain R a l1 /\ chain R (default a (last l1)) l2.
Proof.
  revert a. induction l1 as [|b l1 IH]; intros a.
  - simpl. tauto.
  - rewrite default_last_cons. simpl. rewrite IH. tauto.
Qed.

(** ** Comparisons of floats *)

Lemma SFleb_ltb_false (a b c : spec_float) :
  SFleb a b = true -> SFeqb c a = true -> SFltb b c = false.
Proof.
  unfold SFleb, SFeqb, SFltb.
  destruct a as [[|]|[|]| |[|] ma ea], b as [[|]|[|]| |[|] mb eb], c as [[|]|[|]| |[|] mc ec];
    simpl; try congruence.
  all: destruct (Z.compare_spec ea eb), (Z.compare_spec ec ea), (Z.compare_spec eb ec);
    try congruence; try lia.
  all: rewrite ?Pos.compare_cont_spec; simpl.
  all: destruct (Pos.compare_spec ma mb), (Pos.compare_spec mc ma), (Pos.compare_spec mb mc);
    simpl; try congruence; try lia.
Qed.

Lemma SFltb_leb_trans (a b c : spec_float) :
  SFltb a b = true -> SFleb b c = true -> SFltb a c = true.
Proof.
  unfold SFleb, SFltb.
  destruct a as [[|]|[|]| |[|] ma ea], b as [[|]|[|]| |[|] mb eb], c as [[|]|[|]| |[|] mc ec];
    simpl; try congruence.
  all: destruct (Z.compare_spec ea eb), (Z.compare_spec eb ec), (Z.compare_spec ea ec);
    try congruence; try lia.
  all: rewrite ?Pos.compare_cont_spec; simpl.
  all: destruct (Pos.compare_spec ma mb), (Pos.compare_spec mb mc), (Pos.compare_spec ma mc);
    simpl; try congruence; try lia.
Qed.

(** a float that is not negative is not below zero (of either sign) *)
Lemma ltb_zero (r p : float) :
  (0 <=? r)%float = true -> (p =? 0)%float = true -> (r <? p)%float = false.
Proof.
  rewrite FloatAxioms.leb_spec, FloatAxioms.eqb_spec, FloatAxioms.ltb_spec.
  apply SFleb_ltb_false.
Qed.

(** a float below one is below every float that is at least one *)
Lemma ltb_one (r p : float) :
  (r <? 1)%float = true -> (1 <=? p)%float = true -> (r <? p)%float = true.
Proof.
  rewrite FloatAxioms.leb_spec, !FloatAxioms.ltb_spec.
  apply SFltb_leb_trans.
Qed.

(** ** The state monad *)

Section Proofs.

Context {py : Runtime}.

Lemma result_bind {A B : Type} (m : M A) (f : A -> M B) (s : state) :
  result (bind m f) s = result (f (result m s)) (final m s).
Proof.
  unfold result, final, bind. destruct (m s) as [[a s1] t1]; simpl.
  destruct (f a s1) as [[b s2] t2]; reflexivity.
Qed.

Lemma final_bind {A B : Type} (m : M A) (f : A -> M B) (s : state) :
  final (bind m f) s = final (f (result m s)) (final m s).
Proof.
  unfold result, final, bind. destruct (m s) as [[a s1] t1]; simpl.
  destruct (f a s1) as [[b s2] t2]; reflexivity.
Qed.

Lemma trace_bind {A B : Type} (m : M A) (f : A -> M B) (s : state) :
  trace (bind m f) s = trace m s ++ trace (f (result m s)) (final m s).
Proof.
  unfold result, final, trace, bind. destruct (m s) as [[a s1] t1]; simpl.
  destruct (f a s1) as [[b s2] t2]; reflexivity.
Qed.

(** ** One iteration *)

Lemma body_fastq_view (min_len : Z) (probability : float) (rec : fastq_record) :
  body_fastq min_len probability rec = body min_len probability (fastq_view rec).
Proof. destruct rec as [[name seq] qual]. reflexivity. Qed.

Lemma body_fasta_view (min_len : Z) (probability : float) (rec : fasta_record) :
  body_fasta min_len probability rec = body min_len probability (fasta_view rec).
Proof. destruct rec as [name seq]. reflexivity. Qed.

Lemma body_run (min_len : Z) (probability : float) (v : string * string) (s : state) :
  body min_len probability v s =
    if min_len <=? len v.1 then
      if ((random_random (rng s)).1 <? probability)%float
      then (tt, retained v.2 s, [counted s; passed s; drawn s; written v.2 s; retained v.2 s])
      else (tt, drawn s, [counted s; passed s; drawn s])
    else (tt, counted s, [counted s]).
Proof.
  unfold body, bind, when, incr_total_reads, incr_passed_length_filter, incr_retained_reads,
    fout_write, random, assign, ret, retained, written, drawn, passed, counted.
  rewrite Z.geb_leb. simpl. destruct (min_len <=? len v.1); [|reflexivity].
  simpl. destruct (random_random (rng s)) as [r g]; simpl.
  destruct (r <? probability)%float; reflexivity.
Qed.

(** ** The whole loop *)

Lemma qualifying_cons (min_len : Z) (v : string * string) (l : list (string * string)) :
  qualifying min_len (v :: l) =
    if min_len <=? len v.1 then v :: qualifying min_len l else qualifying min_len l.
Proof. reflexivity. Qed.

Lemma kept_cons (min_len : Z) (probability : float) (v : string * string)
    (l : list (string * string)) (g : rng_state) :
  kept min_len probability (v :: l) g =
    if min_len <=? len v.1 then
      if ((random_random g).1 <? probability)%float
      then v :: kept min_len probability l (random_random g).2
      else kept min_len probability l (random_random g).2
    else kept min_len probability l g.
Proof.
  unfold kept. rewrite qualifying_cons.
  destruct (min_len <=? len v.1); [|reflexivity].
  simpl. destruct ((random_random g).1 <? probability)%float; reflexivity.
Qed.

Lemma after_nil (min_len : Z) (probability : float) (s : state) :
  after min_len probability [] s = s.
Proof.
  destruct s as [t p r f g]. unfold after, kept. simpl.
  rewrite append_nil_r, !Z.add_0_r. reflexivity.
Qed.

Lemma after_cons (min_len : Z) (probability : float) (v : string * string)
    (l : list (string * string)) (s : state) :
  after min_len probability (v :: l) s =
    after min_len probability l (final (body min_len probability v) s).
Proof.
  unfold final. rewrite body_run. unfold after.
  rewrite kept_cons, qualifying_cons.
  destruct (min_len <=? len v.1); [destruct ((random_random (rng s)).1 <? probability)%float|];
    simpl; rewrite ?append_assoc; f_equal; lia.
Qed.

Lemma for_each_ext {R : Type} (reader : records R) (body1 body2 : R -> M unit) :
  (forall rec, body1 rec = body2 rec) -> for_each reader body1 = for_each reader body2.
Proof.
  intros H. induction reader as [|rec rest IH|e]; simpl; [reflexivity| |reflexivity].
  rewrite H, IH. reflexivity.
Qed.

Lemma for_each_final {R : Type} (view : R -> string * string) (reader : records R)
    (min_len : Z) (probability : float) (s : state) :
  final (for_each reader (fun rec => body min_len probability (view rec))) s =
    after min_len probability (map view (yielded reader)) s.
Proof.
  revert s. induction reader as [|rec rest IH|e]; intros s; simpl.
  - symmetry. apply after_nil.
  - rewrite final_bind, IH, after_cons. reflexivity.
  - symmetry. apply after_nil.
Qed.

Lemma for_each_result {R : Type} (reader : records R) (b : R -> M unit) (s : state) :
  result (for_each reader b) s =
    match failure reader with
    | None => Ok tt
    | Some e => Raise e
    end.
Proof.
  revert s. induction reader as [|rec rest IH|e]; intros s; simpl; [reflexivity| |reflexivity].
  rewrite result_bind. apply IH.
Qed.

Lemma loop_final (min_len : Z) (probability : float)
    (reader : records fastq_record + records fasta_record) (s : state) :
  final (loop min_len probability reader) s = after min_len probability (observed reader) s.
Proof.
  destruct reader as [reader|reader]; simpl.
  - rewrite (for_each_ext reader _ _ (body_fastq_view min_len probability)).
    apply (for_each_final fastq_view).
  - rewrite (for_each_ext reader _ _ (body_fasta_view min_len probability)).
    apply (for_each_final fasta_view).
Qed.

Lemma loop_result (min_len : Z) (probability : float)
    (reader : records fastq_record + records fasta_record) (s : state) :
  result (loop min_len probability reader) s =
    match interrupted reader with
    | None => Ok tt
    | Some e => Raise e
    end.
Proof. destruct reader as [reader|reader]; apply for_each_result. Qed.

(** ** The points of a run *)

Lemma trace_body (min_len : Z) (probability : float) (v : string * string) (s : state) :
  exists t, trace (body min_len probability v) s = counted s :: t.
Proof.
  unfold trace. rewrite body_run.
  destruct (min_len <=? len v.1); [destruct ((random_random (rng s)).1 <? probability)%float|];
    eexists; reflexivity.
Qed.

Lemma last_body (min_len : Z) (probability : float) (v : string * string) (s : state) :
  last (trace (body min_len probability v) s) = Some (final (body min_len probability v) s).
Proof.
  unfold trace, final. rewrite body_run.
  destruct (min_len <=? len v.1); [destruct ((random_random (rng s)).1 <? probability)%float|];
    reflexivity.
Qed.

Lemma ordered_body (min_len : Z) (probability : float) (v : string * string) (s : state) :
  ordered s ->
  Forall ordered (trace (body min_len probability v) s) /\
  ordered (final (body min_len probability v) s).
Proof.
  intros Hs. unfold trace, final. rewrite body_run. unfold ordered in *.
  destruct (min_len <=? len v.1); [destruct ((random_random (rng s)).1 <? probability)%float|];
    simpl; repeat constructor; simpl; lia.
Qed.

Lemma counted_up_body (min_len : Z) (probability : float) (v : string * string) (s : state) :
  chain counted_up s (trace (body min_len probability v) s).
Proof.
  unfold trace. rewrite body_run. unfold counted_up.
  destruct (min_len <=? len v.1); [destruct ((random_random (rng s)).1 <? probability)%float|];
    simpl; repeat split; auto.
Qed.

Section ForEach.

Context {R : Type} (view : R -> string * string) (min_len : Z) (probability : float).

Let run (reader : records R) : M (outcome unit) :=
  for_each reader (fun rec => body min_len probability (view rec)).

Lemma last_for_each (reader : records R) (s : state) :
  last (s :: trace (run reader) s) = Some (final (run reader) s).
Proof.
  revert s. induction reader as [|rec rest IH|e]; intros s; [reflexivity| |reflexivity].
  unfold run. simpl. rewrite trace_bind, final_bind.
  destruct (trace_body min_len probability (view rec) s) as [t Ht].
  pose proof (last_body min_len probability (view rec) s) as Hl.
  rewrite Ht in Hl |- *. simpl app. rewrite last_cons_cons, app_comm_cons, last_app.
  fold (run rest). specialize (IH (final (body min_len probability (view rec)) s)).
  destruct (trace (run rest) _) as [|s1 t1] eqn:E.
  - simpl. rewrite Hl. simpl in IH. exact IH.
  - rewrite last_cons_cons in IH. rewrite IH. reflexivity.
Qed.

Lemma ordered_for_each (reader : records R) (s : state) :
  ordered s -> Forall ordered (trace (run reader) s) /\ ordered (final (run reader) s).
Proof.
  revert s. induction reader as [|rec rest IH|e]; intros s Hs.
  - split; [constructor | exact Hs].
  - unfold run. simpl. rewrite trace_bind, final_bind.
    destruct (ordered_body min_len probability (view rec) s Hs) as [Ht Hf].
    destruct (IH _ Hf) as [Ht' Hf']. split; [apply Forall_app; split|]; assumption.
  - split; [constructor | exact Hs].
Qed.

Lemma counted_up_for_each (reader : records R) (s : state) :
  chain counted_up s (trace (run reader) s).
Proof.
  revert s. induction reader as [|rec rest IH|e]; intros s; [exact I| |exact I].
  unfold run. simpl. rewrite trace_bind. apply chain_app. split.
  - apply counted_up_body.
  - rewrite last_body. apply IH.
Qed.

End ForEach.

Lemma loop_as_views (min_len : Z) (probability : float)
    (reader : records fastq_record + records fasta_record) :
  loop min_len probability reader =
    match reader with
    | inl reader => for_each reader (fun rec => body min_len probability (fastq_view rec))
    | inr reader => for_each reader (fun rec => body min_len probability (fasta_view rec))
    end.
Proof.
  destruct reader as [reader|reader]; simpl; apply for_each_ext;
    [apply body_fastq_view | apply body_fasta_view].
Qed.

(** ** The retained records *)

Lemma kept_sublist (min_len : Z) (probability : float) (l : list (string * string))
    (g : rng_state) :
  sublist (kept min_len probability l g) l.
Proof.
  revert g. induction l as [|v l IH]; intros g; [constructor|].
  rewrite kept_cons.
  destruct (min_len <=? len v.1); [destruct ((random_random g).1 <? probability)%float|].
  - apply sublist_skip, IH.
  - apply sublist_cons, IH.
  - apply sublist_cons, IH.
Qed.

Lemma kept_qualify (min_len : Z) (probability : float) (l : list (string * string))
    (g : rng_state) :
  Forall (fun v => min_len <= len v.1) (kept min_len probability l g).
Proof.
  revert g. induction l as [|v l IH]; intros g; [constructor|].
  rewrite kept_cons. destruct (min_len <=? len v.1) eqn:E; [|apply IH].
  destruct ((random_random g).1 <? probability)%float; [|apply IH].
  constructor; [apply Z.leb_le, E | apply IH].
Qed.

Lemma kept_zero (min_len : Z) (probability : float) (l : list (string * string))
    (g : rng_state) :
  unit_interval py -> (probability =? 0)%float = true -> kept min_len probability l g = [].
Proof.
  intros Hu Hp. revert g. induction l as [|v l IH]; intros g; [reflexivity|].
  rewrite kept_cons, (ltb_zero _ _ (proj1 (Hu g)) Hp), !IH.
  destruct (min_len <=? len v.1); reflexivity.
Qed.

Lemma kept_one (min_len : Z) (probability : float) (l : list (string * string))
    (g : rng_state) :
  unit_interval py -> (1 <=? probability)%float = true ->
  kept min_len probability l g = qualifying min_len l.
Proof.
  intros Hu Hp. revert g. induction l as [|v l IH]; intros g; [reflexivity|].
  rewrite kept_cons, qualifying_cons, (ltb_one _ _ (proj2 (Hu g)) Hp), !IH.
  reflexivity.
Qed.

Lemma qualifying_zero (min_len : Z) (l : list (string * string)) :
  min_len <= 0 -> qualifying min_len l = l.
Proof.
  intros Hm. induction l as [|v l IH]; [reflexivity|].
  rewrite qualifying_cons, IH.
  destruct (Z.leb_spec min_len (len v.1)) as [_|Hlt]; [reflexivity|].
  unfold len in Hlt. lia.
Qed.

(** ** The [try] block and the process *)

Lemma try_block_eq (env : environment) (args : Args.t) (min_len : Z) (probability : float)
    (w : world) :
  try_block env args min_len probability w =
    match detect_format env (Args.input args) with
    | Raise e => (Raise e, w)
    | Ok filetype =>
        match make_reader env filetype (Args.input args) with
        | Raise e => (Raise e, w)
        | Ok reader =>
            match open_w env (Args.output args) with
            | Raise e => (Raise e, w)
            | Ok _ =>
                let st := after min_len probability (observed reader) (initial (random_state w)) in
                let w2 := closed (Args.output args) st (opened (Args.output args) w) in
                match interrupted reader with
                | Some e => (Raise e, w2)
                | None => (Ok (filetype, st), w2)
                end
            end
        end
    end.
Proof.
  unfold try_block.
  destruct (detect_format env (Args.input args)) as [filetype|e]; [|reflexivity].
  destruct (make_reader env filetype (Args.input args)) as [reader|e]; [|reflexivity].
  destruct (open_w env (Args.output args)) as [u|e]; [|reflexivity].
  simpl. rewrite loop_final, loop_result.
  destruct (interrupted reader); reflexivity.
Qed.

Lemma files_seeded (args : Args.t) (w : world) : files (seeded args w) = files w.
Proof. unfold seeded. destruct (negb (Args.seed args =? 0)); reflexivity. Qed.

(** once the output is open, the run leaves in it what the loop wrote *)
Lemma process_file_opened (env : environment) (args : Args.t) (w : world)
    (filetype : string) (reader : records fastq_record + records fasta_record) :
  detect_format env (Args.input args) = Ok filetype ->
  make_reader env filetype (Args.input args) = Ok reader ->
  open_w env (Args.output args) = Ok tt ->
  let st := after (Args.length args) (Args.percent args / 100)%float (observed reader)
              (initial (random_state (seeded args w))) in
  files (process_file env args w).2 = <[Args.output args := fout st]> (files w) /\
  random_state (process_file env args w).2 = rng st.
Proof.
  intros Hd Hr Ho. unfold process_file. rewrite try_block_eq, Hd, Hr, Ho.
  cbv zeta. rewrite <- (files_seeded args w).
  destruct (interrupted reader) as [e|];
    [|destruct (report _ _ _ _) as [printed [e|]]];
    simpl; rewrite insert_insert_eq; split; reflexivity.
Qed.

(** when the block fails before the output is open, nothing is touched *)
Lemma process_file_detect (env : environment) (args : Args.t) (w : world) (e : exn) :
  detect_format env (Args.input args) = Raise e ->
  process_file env args w = (SysExit 1, print_stderr ("Error: " +:+ str e) (seeded args w)).
Proof. intros Hd. unfold process_file. rewrite try_block_eq, Hd. reflexivity. Qed.

(** ** The claims on the pipeline *)

(** C1: once the format is detected, the reader built and the output opened,
    the output file holds the texts of exactly these records, in the order of
    the input: the records with [len(seq) >= min_len] are paired, in order,
    with the successive draws of the generator (one draw for each of them,
    none for the others), and a record is written iff its draw is below
    [probability].  Every record written satisfies the length filter.  In
    each iteration: a record that fails the length test is not written and
    takes no draw; a record that passes it takes one draw and is written iff
    the draw is below [probability]. *)
Theorem retained_iff_length_and_draw (env : environment) (args : Args.t) (w : world)
    (filetype : string) (reader : records fastq_record + records fasta_record) :
  detect_format env (Args.input args) = Ok filetype ->
  make_reader env filetype (Args.input args) = Ok reader ->
  open_w env (Args.output args) = Ok tt ->
  let min_len := Args.length args in
  let probability := (Args.percent args / 100)%float in
  let g := random_state (seeded args w) in
  let l := observed reader in
  let q := List.filter (fun v => min_len <=? len v.1) l in
  let k := map fst (List.filter (fun vr => (vr.2 <? probability)%float)
                      (zip q (draws (length q) g))) in
  files (process_file env args w).2 !! Args.output args = Some (join (map snd k)) /\
  random_state (process_file env args w).2 = advance (length q) g /\
  Forall (fun v => min_len <= len v.1) k /\
  sublist k l /\
  (forall name seq qual s,
     let s' := final (body_fastq min_len probability (name, seq, qual)) s in
     if min_len <=? len seq
     then rng s' = (random_random (rng s)).2 /\
          fout s' = fout s +:+ (if ((random_random (rng s)).1 <? probability)%float
                                then fastq_entry name seq qual else EmptyString)
     else rng s' = rng s /\ fout s' = fout s) /\
  (forall name seq s,
     let s' := final (body_fasta min_len probability (name, seq)) s in
     if min_len <=? len seq
     then rng s' = (random_random (rng s)).2 /\
          fout s' = fout s +:+ (if ((random_random (rng s)).1 <? probability)%float
                                then fasta_entry name seq else EmptyString)
     else rng s' = rng s /\ fout s' = fout s).
Proof.
  intros Hd Hr Ho min_len probability g l q k.
  destruct (process_file_opened env args w filetype reader Hd Hr Ho) as [Hf Hg].
  change k with (kept min_len probability l g).
  assert (Hbody : forall v s,
    let s' := final (body min_len probability v) s in
    if min_len <=? len v.1
    then rng s' = (random_random (rng s)).2 /\
         fout s' = fout s +:+ (if ((random_random (rng s)).1 <? probability)%float
                               then v.2 else EmptyString)
    else rng s' = rng s /\ fout s' = fout s).
  { intros v s s'. subst s'. unfold final. rewrite body_run.
    destruct (min_len <=? len v.1); [destruct ((random_random (rng s)).1 <? probability)%float|];
      simpl; rewrite ?append_nil_r; split; reflexivity. }
  split; [|split; [|split; [|split; [|split]]]].
  - rewrite Hf, lookup_insert_eq. reflexivity.
  - rewrite Hg. reflexivity.
  - apply kept_qualify.
  - apply kept_sublist.
  - intros name seq qual s. rewrite body_fastq_view.
    apply (Hbody (fastq_view (name, seq, qual))).
  - intros name seq s. rewrite body_fasta_view. apply (Hbody (fasta_view (name, seq))).
Qed.

(** C2: an iteration increments [passed_length_filter] exactly when
    [len(seq) >= min_len], a length equal to [min_len] included, and does
    nothing but count the record otherwise; over the loop the counter grows
    by the number of records that satisfy the test, and with [min_len = 0]
    by the number of all records, empty sequences included. *)
Theorem length_filter_passes (min_len : Z) (probability : float)
    (reader : records fastq_record + records fasta_record) (s : state) :
  (forall name seq qual s0,
     let s' := final (body_fastq min_len probability (name, seq, qual)) s0 in
     (len seq >= min_len -> passed_length_filter s' = passed_length_filter s0 + 1) /\
     (len seq < min_len -> s' = counted s0)) /\
  (forall name seq s0,
     let s' := final (body_fasta min_len probability (name, seq)) s0 in
     (len seq >= min_len -> passed_length_filter s' = passed_length_filter s0 + 1) /\
     (len seq < min_len -> s' = counted s0)) /\
  passed_length_filter (final (loop min_len probability reader) s) =
    passed_length_filter s
    + Z.of_nat (length (List.filter (fun v => min_len <=? len v.1) (observed reader))) /\
  passed_length_filter (final (loop 0 probability reader) s) =
    passed_length_filter s + Z.of_nat (length (observed reader)) /\
  (forall name qual s0,
     passed_length_filter (final (body_fastq 0 probability (name, EmptyString, qual)) s0) =
       passed_length_filter s0 + 1).
Proof.
  assert (Hbody : forall v s0,
    let s' := final (body min_len probability v) s0 in
    (len v.1 >= min_len -> passed_length_filter s' = passed_length_filter s0 + 1) /\
    (len v.1 < min_len -> s' = counted s0)).
  { intros v s0 s'. subst s'. unfold final. rewrite body_run.
    destruct (Z.leb_spec min_len (len v.1)) as [Hle|Hlt].
    - split; [intros _|lia].
      destruct ((random_random (rng s0)).1 <? probability)%float; reflexivity.
    - split; [lia|reflexivity]. }
  split; [|split; [|split; [|split]]].
  - intros name seq qual s0. rewrite body_fastq_view. apply (Hbody (fastq_view (name, seq, qual))).
  - intros name seq s0. rewrite body_fasta_view. apply (Hbody (fasta_view (name, seq))).
  - rewrite loop_final. reflexivity.
  - rewrite loop_final. simpl. rewrite qualifying_zero by lia. reflexivity.
  - intros name qual s0. rewrite body_fastq_view. unfold final. rewrite body_run. simpl.
    destruct ((random_random (rng s0)).1 <? probability)%float; reflexivity.
Qed.

(** C3: when [random.random()] returns floats of [[0, 1)]: with a probability
    equal to zero the loop retains and writes nothing, while [total_reads] and
    [passed_length_filter] count as usual; with a probability of at least one
    it retains and writes every record that passes the length filter. *)
Theorem probability_zero_and_one (min_len : Z) (probability : float)
    (reader : records fastq_record + records fasta_record) (g : rng_state) :
  unit_interval py ->
  let s' := final (loop min_len probability reader) (initial g) in
  let q := List.filter (fun v => min_len <=? len v.1) (observed reader) in
  ((probability =? 0)%float = true ->
     retained_reads s' = 0 /\ fout s' = EmptyString /\
     total_reads s' = Z.of_nat (length (observed reader)) /\
     passed_length_filter s' = Z.of_nat (length q)) /\
  ((1 <=? probability)%float = true ->
     retained_reads s' = passed_length_filter s' /\
     passed_length_filter s' = Z.of_nat (length q) /\
     fout s' = join (map snd q)).
Proof.
  intros Hu s' q. subst s'. rewrite loop_final. unfold after. simpl. split; intros Hp.
  - rewrite (kept_zero _ _ _ _ Hu Hp). repeat split.
  - rewrite (kept_one _ _ _ _ Hu Hp). repeat split.
Qed.

(** C4: the counters start at zero; at every point of the loop, and at its
    end, [0 <= retained_reads <= passed_length_filter <= total_reads]; from
    one point to the next a counter keeps its value or grows by one; an
    iteration starts by incrementing [total_reads], whatever the record, so
    that at the end [total_reads] is the number of records read. *)
Theorem counters_ordered_at_every_point (min_len : Z) (probability : float)
    (reader : records fastq_record + records fasta_record) (g : rng_state) :
  let s0 := initial g in
  let run := loop min_len probability reader in
  (total_reads s0 = 0 /\ passed_length_filter s0 = 0 /\ retained_reads s0 = 0) /\
  Forall ordered (s0 :: trace run s0) /\
  chain counted_up s0 (trace run s0) /\
  last (s0 :: trace run s0) = Some (final run s0) /\
  total_reads (final run s0) = Z.of_nat (length (observed reader)) /\
  (forall rec s, exists t, trace (body_fastq min_len probability rec) s = counted s :: t) /\
  (forall rec s, exists t, trace (body_fasta min_len probability rec) s = counted s :: t).
Proof.
  intros s0 run.
  assert (H0 : ordered s0) by (unfold ordered; simpl; lia).
  split; [repeat split|]. split; [|split; [|split; [|split; [|split]]]].
  - constructor; [exact H0|]. subst run. rewrite loop_as_views.
    destruct reader as [reader|reader]; apply ordered_for_each; exact H0.
  - subst run. rewrite loop_as_views.
    destruct reader as [reader|reader]; apply counted_up_for_each.
  - subst run. rewrite loop_as_views.
    destruct reader as [reader|reader]; apply last_for_each.
  - subst run. rewrite loop_final. reflexivity.
  - intros rec s. rewrite body_fastq_view. apply trace_body.
  - intros rec s. rewrite body_fasta_view. apply trace_body.
Qed.

(** ** The report and the exit *)

Lemma truediv_nonzero (a b : Z) : b <> 0 -> exists ratio, truediv a b = Ok ratio.
Proof.
  intros Hb. unfold truediv. destruct (Z.eqb_spec b 0) as [->|_]; [contradiction|].
  eexists; reflexivity.
Qed.

Lemma report_eq (args : Args.t) (min_len : Z) (filetype : string) (st : state) :
  (report args min_len filetype st).2 = None.
Proof.
  unfold report. destruct (Z.gtb_spec (total_reads st) 0) as [Hpos|_]; [|reflexivity].
  destruct (truediv_nonzero (retained_reads st) (total_reads st)) as [ratio ->]; [lia|].
  reflexivity.
Qed.

Lemma report_some_reads (args : Args.t) (min_len : Z) (filetype : string) (st : state) :
  total_reads st > 0 ->
  exists ratio,
    truediv (retained_reads st) (total_reads st) = Ok ratio /\
    (report args min_len filetype st).1 =
      statistics args min_len filetype st
      ++ [ "Actual Retention Ratio:        " +:+ format_2f (ratio * 100)%float +:+ "%";
           repeat_str "-" 40 ].
Proof.
  intros Hpos. unfold report.
  destruct (Z.gtb_spec (total_reads st) 0) as [_|Hle]; [|lia].
  destruct (truediv_nonzero (retained_reads st) (total_reads st)) as [ratio Hq]; [lia|].
  exists ratio. rewrite Hq. split; reflexivity.
Qed.

Lemma report_no_reads (args : Args.t) (min_len : Z) (filetype : string) (st : state) :
  total_reads st <= 0 ->
  (report args min_len filetype st).1 =
    statistics args min_len filetype st ++ [ repeat_str "-" 40 ].
Proof.
  intros Hle. unfold report.
  destruct (Z.gtb_spec (total_reads st) 0) as [Hpos|_]; [lia|reflexivity].
Qed.

Lemma process_file_eq (env : environment) (args : Args.t) (w : world) :
  process_file env args w =
    let w0 := seeded args w in
    let min_len := Args.length args in
    let probability := (Args.percent args / 100)%float in
    let failed e w := (SysExit 1, print_stderr ("Error: " +:+ str e) w) in
    match detect_format env (Args.input args) with
    | Raise e => failed e w0
    | Ok filetype =>
        match make_reader env filetype (Args.input args) with
        | Raise e => failed e w0
        | Ok reader =>
            match open_w env (Args.output args) with
            | Raise e => failed e w0
            | Ok _ =>
                let st := after min_len probability (observed reader)
                            (initial (random_state w0)) in
                let w2 := closed (Args.output args) st (opened (Args.output args) w0) in
                match interrupted reader with
                | Some e => failed e w2
                | None => (Returned, print_stdout (report args min_len filetype st).1 w2)
                end
            end
        end
    end.
Proof.
  unfold process_file. rewrite try_block_eq. cbv zeta.
  destruct (detect_format env (Args.input args)) as [filetype|e]; [|reflexivity].
  destruct (make_reader env filetype (Args.input args)) as [reader|e]; [|reflexivity].
  destruct (open_w env (Args.output args)) as [u|e]; [|reflexivity].
  destruct (interrupted reader) as [e|]; [reflexivity|].
  pose proof (report_eq args (Args.length args) filetype
    (after (Args.length args) (Args.percent args / 100)%float (observed reader)
       (initial (random_state (seeded args w))))) as Hr.
  destruct (report _ _ _ _) as [printed o]. simpl in Hr. subst o. reflexivity.
Qed.

Lemma seeded_streams (args : Args.t) (w : world) :
  stdout (seeded args w) = stdout w /\ stderr (seeded args w) = stderr w.
Proof. unfold seeded. destruct (negb (Args.seed args =? 0)); split; reflexivity. Qed.

Lemma seeded_nonzero (args : Args.t) (w : world) :
  Args.seed args <> 0 -> random_state (seeded args w) = random_seed (Args.seed args).
Proof.
  intros Hs. unfold seeded. destruct (Z.eqb_spec (Args.seed args) 0); [contradiction|].
  reflexivity.
Qed.

Lemma make_reader_format (env : environment) (filetype input : string)
    (reader : records fastq_record + records fasta_record) :
  make_reader env filetype input = Ok reader ->
  (filetype = "fastq" /\ exists rs, Fastq env input = Ok rs /\ reader = inl rs) \/
  (filetype <> "fastq" /\ exists rs, Fasta env input = Ok rs /\ reader = inr rs).
Proof.
  unfold make_reader. destruct (String.eqb_spec filetype "fastq") as [->|Hne].
  - destruct (Fastq env input) as [rs|e]; [|discriminate].
    intros [= <-]. left. eauto.
  - destruct (Fasta env input) as [rs|e]; [|discriminate].
    intros [= <-]. right. eauto.
Qed.

Lemma detect_format_names (env : environment) (filename filetype : string) :
  detect_format env filename = Ok filetype -> filetype = "fasta" \/ filetype = "fastq".
Proof.
  unfold detect_format.
  destruct ((if endswith filename ".gz" then gzip_open_rt env else open_rt env) filename)
    as [text|e]; [|discriminate].
  destruct (String.eqb (read1 text) ">"); [intros [= <-]; now left|].
  destruct (String.eqb (read1 text) "@"); [intros [= <-]; now right|discriminate].
Qed.

(** [same_error H]: a fatal error [H] is the one the steps of the run, as
    recorded in the context, lead to; the goal is closed when there is none *)
Ltac same_error H :=
  destruct H;
  repeat match goal with
  | H1 : ?x = _, H2 : ?x = _ |- _ => rewrite H1 in H2; first [discriminate H2 | injection H2 as <-]
  | H1 : ?x = ?y, H2 : ?x = ?y |- _ => clear H2
  end.

(** ** The claims on detection, the report and the exit *)

(** C5: when the input can be read, [detect_format] looks at its first
    character only: ['>'] gives ["fasta"], ['@'] gives ["fastq"], and any
    other first character, or an empty input, raises the [ValueError] of the
    detection; when it raises, the run stops there, with nothing read from a
    record reader, nothing written and no draw. *)
Theorem detect_format_first_character (env : environment) (args : Args.t) (w : world)
    (text : string) :
  (if endswith (Args.input args) ".gz" then gzip_open_rt env else open_rt env)
    (Args.input args) = Ok text ->
  let r := detect_format env (Args.input args) in
  let undetected := ValueError "Cannot detect file format (not FASTA/FASTQ)" in
  (forall rest, text = String ">" rest -> r = Ok "fasta") /\
  (forall rest, text = String "@" rest -> r = Ok "fastq") /\
  (text = EmptyString -> r = Raise undetected) /\
  (forall c rest, text = String c rest -> c <> ">"%char -> c <> "@"%char ->
     r = Raise undetected) /\
  (forall e, r = Raise e ->
     process_file env args w = (SysExit 1, print_stderr ("Error: " +:+ str e) (seeded args w))).
Proof.
  intros Hopen r undetected. subst r. unfold detect_format. rewrite Hopen.
  repeat split.
  - intros rest ->. reflexivity.
  - intros rest ->. reflexivity.
  - intros ->. reflexivity.
  - intros c rest -> Hgt Hat. simpl.
    destruct (Ascii.eqb_spec c ">"); [contradiction|].
    destruct (Ascii.eqb_spec c "@"); [contradiction|]. reflexivity.
  - intros e He. apply process_file_detect. unfold detect_format. rewrite Hopen. exact He.
Qed.

(** C6: with a seed other than zero, what a run does is fixed by the input
    and the configuration alone: the retain/drop decisions (the outcome of the
    [try] block), the exit, and the text left in the output file, if it is
    written at all, are the same from every starting state of the generator
    and of the process. *)
Theorem seeded_runs_agree (env : environment) (args : Args.t) :
  Args.seed args <> 0 ->
  exists (decisions : outcome (string * state)) (x : exit) (written : option string),
    forall w : world,
      (try_block env args (Args.length args) (Args.percent args / 100)%float
         (seeded args w)).1 = decisions /\
      (process_file env args w).1 = x /\
      files (process_file env args w).2 =
        match written with
        | Some text => <[Args.output args := text]> (files w)
        | None => files w
        end.
Proof.
  intros Hs.
  destruct (detect_format env (Args.input args)) as [filetype|e] eqn:Hd.
  2:{ exists (Raise e), (SysExit 1), None. intros w.
      rewrite process_file_eq, try_block_eq, Hd. simpl. rewrite files_seeded. auto. }
  destruct (make_reader env filetype (Args.input args)) as [reader|e] eqn:Hr.
  2:{ exists (Raise e), (SysExit 1), None. intros w.
      rewrite process_file_eq, try_block_eq, Hd, Hr. simpl. rewrite files_seeded. auto. }
  destruct (open_w env (Args.output args)) as [u|e] eqn:Ho.
  2:{ exists (Raise e), (SysExit 1), None. intros w.
      rewrite process_file_eq, try_block_eq, Hd, Hr, Ho. simpl. rewrite files_seeded. auto. }
  set (st := after (Args.length args) (Args.percent args / 100)%float (observed reader)
               (initial (random_seed (Args.seed args)))).
  destruct (interrupted reader) as [e|] eqn:Hi.
  - exists (Raise e), (SysExit 1), (Some (fout st)). intros w.
    rewrite process_file_eq, try_block_eq, Hd, Hr, Ho, Hi. cbv zeta.
    rewrite (seeded_nonzero args w Hs). fold st. simpl.
    rewrite files_seeded, insert_insert_eq. auto.
  - exists (Ok (filetype, st)), Returned, (Some (fout st)). intros w.
    rewrite process_file_eq, try_block_eq, Hd, Hr, Ho, Hi. cbv zeta.
    rewrite (seeded_nonzero args w Hs). fold st. simpl.
    rewrite files_seeded, insert_insert_eq. auto.
Qed.

(** C7: a retained record is written in the format of its loop, and the
    FASTQ loop runs exactly on the input detected as FASTQ.  The FASTA loop
    appends ['>'], the name, a newline, the sequence and a newline; the FASTQ
    loop appends ['@'], the name, a newline, the sequence, a newline, ['+'], a
    newline, the quality string and a newline.  For a name, a sequence and a
    quality string without line breaks, the FASTA text is two lines, ['>'] and
    the name, then the whole sequence, however long; the FASTQ text is four
    lines, ['@'] and the name, the sequence, ['+'], the quality string; and in
    both the last line is ended, so that whatever is written next starts a
    line of its own. *)
Theorem entries_in_detected_format (name seq qual : string) :
  has_newline name = false -> has_newline seq = false -> has_newline qual = false ->
  lines (fasta_entry name seq) = [">" +:+ name; seq] /\
  lines (fastq_entry name seq qual) = ["@" +:+ name; seq; "+"; qual] /\
  (forall rest,
     lines (fasta_entry name seq +:+ rest) = (">" +:+ name) :: seq :: lines rest) /\
  (forall rest,
     lines (fastq_entry name seq qual +:+ rest) =
       ("@" +:+ name) :: seq :: "+" :: qual :: lines rest) /\
  (forall min_len probability s,
     let s' := final (body_fasta min_len probability (name, seq)) s in
     (retained_reads s' = retained_reads s /\ fout s' = fout s) \/
     (retained_reads s' = retained_reads s + 1 /\
      fout s' = fout s +:+ ">" +:+ name +:+ newline +:+ seq +:+ newline)) /\
  (forall min_len probability s,
     let s' := final (body_fastq min_len probability (name, seq, qual)) s in
     (retained_reads s' = retained_reads s /\ fout s' = fout s) \/
     (retained_reads s' = retained_reads s + 1 /\
      fout s' = fout s +:+ "@" +:+ name +:+ newline +:+ seq +:+ newline
                       +:+ "+" +:+ newline +:+ qual +:+ newline)) /\
  (forall env input filetype reader min_len probability,
     detect_format env input = Ok filetype ->
     make_reader env filetype input = Ok reader ->
     (filetype = "fastq" /\ exists rs, reader = inl rs /\
        loop min_len probability reader = for_each rs (body_fastq min_len probability)) \/
     (filetype = "fasta" /\ exists rs, reader = inr rs /\
        loop min_len probability reader = for_each rs (body_fasta min_len probability))).
Proof.
  intros Hname Hseq Hqual.
  assert (Hbody : forall min_len probability v s,
    let s' := final (body min_len probability v) s in
    (retained_reads s' = retained_reads s /\ fout s' = fout s) \/
    (retained_reads s' = retained_reads s + 1 /\ fout s' = fout s +:+ v.2)).
  { intros min_len probability v s s'. subst s'. unfold final. rewrite body_run.
    destruct (min_len <=? len v.1); [destruct ((random_random (rng s)).1 <? probability)%float|];
      simpl; auto. }
  split; [|split; [|split; [|split; [|split; [|split]]]]].
  - rewrite <- (append_nil_r (fasta_entry name seq)).
    exact (lines_fasta_entry name seq EmptyString Hname Hseq).
  - rewrite <- (append_nil_r (fastq_entry name seq qual)).
    exact (lines_fastq_entry name seq qual EmptyString Hname Hseq Hqual).
  - intros rest. apply lines_fasta_entry; assumption.
  - intros rest. apply lines_fastq_entry; assumption.
  - intros min_len probability s. rewrite body_fasta_view.
    apply (Hbody min_len probability (fasta_view (name, seq))).
  - intros min_len probability s. rewrite body_fastq_view.
    apply (Hbody min_len probability (fastq_view (name, seq, qual))).
  - intros env input filetype reader min_len probability Hd Hr.
    destruct (make_reader_format env filetype input reader Hr) as [[-> [rs [_ ->]]]|[Hne [rs [_ ->]]]].
    + left. split; [reflexivity|]. exists rs. split; reflexivity.
    + right. destruct (detect_format_names env input filetype Hd) as [->| ->]; [|contradiction].
      split; [reflexivity|]. exists rs. split; reflexivity.
Qed.

(** C8: the report never fails, and no run lets an exception escape: the
    ratio [retained_reads / total_reads], times 100 and printed with two
    decimals, is computed and printed only when [total_reads > 0], where the
    division has a result; when [total_reads] is zero the ratio line is left
    out and nothing is divided. *)
Theorem ratio_division_guarded (args : Args.t) (min_len : Z) (filetype : string)
    (st : state) :
  let printed := statistics args min_len filetype st in
  (report args min_len filetype st).2 = None /\
  (total_reads st > 0 ->
     exists ratio,
       truediv (retained_reads st) (total_reads st) = Ok ratio /\
       (report args min_len filetype st).1 =
         printed ++ [ "Actual Retention Ratio:        " +:+ format_2f (ratio * 100)%float +:+ "%";
                      repeat_str "-" 40 ]) /\
  (total_reads st <= 0 ->
     (report args min_len filetype st).1 = printed ++ [ repeat_str "-" 40 ]) /\
  (forall a b, truediv a b = Raise (ZeroDivisionError "division by zero") <-> b = 0) /\
  (forall env w e, (process_file env args w).1 <> Uncaught e).
Proof.
  intros printed. split; [apply report_eq|]. split; [|split; [|split]].
  - intros Hpos. unfold report.
    destruct (Z.gtb_spec (total_reads st) 0) as [_|Hle]; [|lia].
    destruct (truediv_nonzero (retained_reads st) (total_reads st)) as [ratio Hq]; [lia|].
    exists ratio. rewrite Hq. split; reflexivity.
  - intros Hle. unfold report.
    destruct (Z.gtb_spec (total_reads st) 0) as [Hpos|_]; [lia|reflexivity].
  - intros a b. unfold truediv. destruct (Z.eqb_spec b 0) as [->|Hb]; split; try easy.
  - intros env w e. rewrite process_file_eq. cbv zeta.
    destruct (detect_format env (Args.input args)) as [ft|e1]; [|discriminate].
    destruct (make_reader env ft (Args.input args)) as [reader|e1]; [|discriminate].
    destruct (open_w env (Args.output args)) as [u|e1]; [|discriminate].
    destruct (interrupted reader) as [e1|]; discriminate.
Qed.

(** C9: on a fatal error (the format is not detected or the input cannot be
    read, the reader cannot be built, the output cannot be opened, a record
    cannot be decoded) the run prints ["Error: "] and the message on the error
    stream, prints no report, and exits with code 1; the loop ends where the
    reader raises, with no further statement executed; and whatever the
    exception that leaves the [try] block, the handler does the same.  When
    there is no fatal error the run prints the report (the rule, the title,
    the format, the three counters, the ratio when there is one, the rule),
    prints nothing on the error stream, and returns, that is, exits with code
    0.  (Once the output is open, writing to it and closing it are taken to
    succeed.) *)
Theorem fatal_errors_stop_the_run (env : environment) (args : Args.t) (w : world) :
  let r := process_file env args w in
  let min_len := Args.length args in
  let probability := (Args.percent args / 100)%float in
  (forall e, fatal env args e ->
     r.1 = SysExit 1 /\ exit_code r.1 <> 0 /\
     stderr r.2 = stderr w ++ ["Error: " +:+ str e] /\
     stdout r.2 = stdout w) /\
  ((forall e, ~ fatal env args e) ->
     r.1 = Returned /\ exit_code r.1 = 0 /\
     stderr r.2 = stderr w /\
     exists filetype st ratio_line,
       (try_block env args min_len probability (seeded args w)).1 = Ok (filetype, st) /\
       stdout r.2 = stdout w ++ (report args min_len filetype st).1 /\
       stdout r.2 = stdout w ++
         [ "----------------------------------------";
           "Processing Complete";
           "Input type:                    " +:+ upper filetype;
           "Total Raw Reads:               " +:+ str_int (total_reads st);
           "Reads >= " +:+ str_int min_len +:+ "bp:                "
             +:+ str_int (passed_length_filter st);
           "Retained Reads (" +:+ repr_float (Args.percent args) +:+ "% target): "
             +:+ str_int (retained_reads st) ]
         ++ ratio_line ++ [ "----------------------------------------" ] /\
       ((total_reads st <= 0 /\ ratio_line = []) \/
        (total_reads st > 0 /\
         exists ratio,
           truediv (retained_reads st) (total_reads st) = Ok ratio /\
           ratio_line =
             [ "Actual Retention Ratio:        " +:+ format_2f (ratio * 100)%float +:+ "%" ]))) /\
  ((exists e, fatal env args e) \/ (forall e, ~ fatal env args e)) /\
  (forall e min_len probability s,
     body_stops (for_each (Broken e) (body_fastq min_len probability)) e s /\
     body_stops (for_each (Broken e) (body_fasta min_len probability)) e s) /\
  (forall e w',
     try_block env args min_len probability (seeded args w) = (Raise e, w') ->
     r = (SysExit 1, print_stderr ("Error: " +:+ str e) w')).
Proof.
  intros r min_len probability. subst r min_len probability.
  match goal with
  | |- ?A /\ ?B /\ ?C /\ _ =>
      enough (H : A /\ B /\ C);
      [destruct H as (HA & HB & HC);
       split; [exact HA|split; [exact HB|split; [exact HC|split]]]|]
  end.
  { intros; repeat split. }
  { intros e w' Hraise. unfold process_file. cbv zeta. rewrite Hraise. reflexivity. }
  destruct (seeded_streams args w) as [Hout Herr].
  rewrite process_file_eq, try_block_eq. cbv zeta.
  destruct (detect_format env (Args.input args)) as [filetype|e0] eqn:Hd;
    [destruct (make_reader env filetype (Args.input args)) as [reader|e0] eqn:Hr;
      [destruct (open_w env (Args.output args)) as [[]|e0] eqn:Ho;
        [destruct (interrupted reader) as [e0|] eqn:Hi|]|]|].
  - (* a record cannot be decoded *)
    split; [|split].
    + intros e He. same_error He. simpl. rewrite Hout, Herr. repeat split; discriminate.
    + intros Hnone. destruct (Hnone e0). eapply fatal_record; eassumption.
    + left. exists e0. eapply fatal_record; eassumption.
  - (* no error *)
    split; [|split].
    + intros e He. same_error He.
    + intros _.
      set (st := after (Args.length args) (Args.percent args / 100)%float (observed reader)
                   (initial (random_state (seeded args w)))).
      unfold print_stdout, closed, opened. cbn [fst snd stdout stderr exit_code].
      rewrite Hout, Herr.
      split; [reflexivity|]. split; [reflexivity|]. split; [reflexivity|].
      destruct (Z.gtb_spec (total_reads st) 0) as [Hpos|Hle].
      * destruct (report_some_reads args (Args.length args) filetype st) as (ratio & Hq & Hrep);
          [lia|].
        exists filetype, st,
          [ "Actual Retention Ratio:        " +:+ format_2f (ratio * 100)%float +:+ "%" ].
        split; [reflexivity|]. split; [reflexivity|]. rewrite Hrep.
        split; [reflexivity|]. right. split; [lia|]. exists ratio. split; [exact Hq|reflexivity].
      * exists filetype, st, []. rewrite (report_no_reads _ _ _ _ Hle).
        split; [reflexivity|]. split; [reflexivity|]. split; [reflexivity|].
        left. split; [exact Hle|reflexivity].
    + right. intros e He. same_error He.
  - (* the output cannot be opened *)
    split; [|split].
    + intros e He. same_error He. simpl. rewrite Hout, Herr. repeat split; discriminate.
    + intros Hnone. destruct (Hnone e0). eapply fatal_output; eassumption.
    + left. exists e0. eapply fatal_output; eassumption.
  - (* the reader cannot be built *)
    split; [|split].
    + intros e He. same_error He. simpl. rewrite Hout, Herr. repeat split; discriminate.
    + intros Hnone. destruct (Hnone e0). eapply fatal_reader; eassumption.
    + left. exists e0. eapply fatal_reader; eassumption.
  - (* the format is not detected *)
    split; [|split].
    + intros e He. same_error He. simpl. rewrite Hout, Herr. repeat split; discriminate.
    + intros Hnone. destruct (Hnone e0). now apply fatal_detection.
    + left. exists e0. now apply fatal_detection.
Qed.

(** C10: when the detection fails, the files are left as they were, the
    output file is neither created nor truncated; so are they when the reader
    cannot be built or the output cannot be opened.  When the format is
    detected, the reader built and the output opened, the output file exists
    at the end of the run, with what the loop wrote: it is empty when the loop
    was interrupted before its first record, and when no record was
    retained. *)
Theorem output_opened_after_detection (env : environment) (args : Args.t) (w : world) :
  let r := process_file env args w in
  (forall e, detect_format env (Args.input args) = Raise e -> files r.2 = files w) /\
  (forall filetype e,
     detect_format env (Args.input args) = Ok filetype ->
     make_reader env filetype (Args.input args) = Raise e ->
     files r.2 = files w) /\
  (forall filetype reader e,
     detect_format env (Args.input args) = Ok filetype ->
     make_reader env filetype (Args.input args) = Ok reader ->
     open_w env (Args.output args) = Raise e ->
     files r.2 = files w) /\
  (forall filetype reader,
     detect_format env (Args.input args) = Ok filetype ->
     make_reader env filetype (Args.input args) = Ok reader ->
     open_w env (Args.output args) = Ok tt ->
     let st := final (loop (Args.length args) (Args.percent args / 100)%float reader)
                 (initial (random_state (seeded args w))) in
     files r.2 = <[Args.output args := fout st]> (<[Args.output args := EmptyString]> (files w)) /\
     files r.2 !! Args.output args = Some (fout st) /\
     (observed reader = [] -> files r.2 !! Args.output args = Some EmptyString) /\
     (retained_reads st = 0 -> files r.2 !! Args.output args = Some EmptyString)).
Proof.
  intros r. subst r. split; [|split; [|split]].
  - intros e Hd. rewrite process_file_eq, Hd. simpl. apply files_seeded.
  - intros filetype e Hd Hr. rewrite process_file_eq, Hd, Hr. simpl. apply files_seeded.
  - intros filetype reader e Hd Hr Ho. rewrite process_file_eq, Hd, Hr, Ho. simpl.
    apply files_seeded.
  - intros filetype reader Hd Hr Ho st.
    destruct (process_file_opened env args w filetype reader Hd Hr Ho) as [Hf _].
    subst st. rewrite loop_final. rewrite Hf, insert_insert_eq, lookup_insert_eq.
    repeat split.
    + intros ->. reflexivity.
    + unfold after. simpl. intros Hz.
      destruct (kept _ _ _ _) as [|v k]; [reflexivity|]. simpl length in Hz. lia.
Qed.

End Proofs.

(** * The claims at concrete runs *)

Lemma toy_unit_interval : unit_interval Toy.toy.
Proof. intros [|]; split; reflexivity. Qed.

Lemma retained_iff_length_and_draw_witness :
  detect_format (Toy.fa Toy.reads) "in.fa" = Ok "fasta" /\
  make_reader (Toy.fa Toy.reads) "fasta" "in.fa" = Ok (inr (of_list Toy.reads)) /\
  open_w (Toy.fa Toy.reads) "out.fa" = Ok tt /\
  files (process_file (Toy.fa Toy.reads) Toy.args Toy.w0).2 !! "out.fa" =
    Some (">r1" +:+ newline +:+ "ACGT" +:+ newline +:+ ">r4" +:+ newline +:+ "ACGTACGT" +:+ newline).
Proof.
  split; [reflexivity|]. split; [reflexivity|]. split; [reflexivity|].
  exact (proj1 (retained_iff_length_and_draw (Toy.fa Toy.reads) Toy.args Toy.w0 "fasta"
                  (inr (of_list Toy.reads)) eq_refl eq_refl eq_refl)).
Defined.

Lemma probability_zero_and_one_witness :
  unit_interval Toy.toy /\
  retained_reads (final (loop 4 0 (inr (of_list Toy.reads))) (initial (py := Toy.toy) true)) = 0 /\
  fout (final (loop 4 1 (inr (of_list Toy.reads))) (initial (py := Toy.toy) true)) =
    ">r1" +:+ newline +:+ "ACGT" +:+ newline +:+ ">r3" +:+ newline +:+ "ACGTA" +:+ newline
    +:+ ">r4" +:+ newline +:+ "ACGTACGT" +:+ newline.
Proof.
  split; [exact toy_unit_interval|]. split.
  - exact (proj1 (proj1 (probability_zero_and_one (py := Toy.toy) 4 0 (inr (of_list Toy.reads)) true
                           toy_unit_interval) eq_refl)).
  - exact (proj2 (proj2 (proj2 (probability_zero_and_one (py := Toy.toy) 4 1 (inr (of_list Toy.reads)) true
                                  toy_unit_interval) eq_refl))).
Defined.

Lemma detect_format_first_character_witness :
  open_rt (Toy.fa Toy.reads) "in.fa" = Ok (Toy.fasta_text Toy.reads) /\
  detect_format (Toy.fa Toy.reads) "in.fa" = Ok "fasta".
Proof.
  split; [reflexivity|].
  exact (proj1 (detect_format_first_character (Toy.fa Toy.reads) Toy.args Toy.w0
                  (Toy.fasta_text Toy.reads) eq_refl)
           _ eq_refl).
Defined.

Lemma seeded_runs_agree_witness :
  Args.seed Toy.args <> 0 /\
  exists (decisions : outcome (string * state)) (x : exit) (written : option string),
    forall w : world,
      (try_block (Toy.fa Toy.reads) Toy.args 4 0.5 (seeded Toy.args w)).1 = decisions /\
      (process_file (Toy.fa Toy.reads) Toy.args w).1 = x /\
      files (process_file (Toy.fa Toy.reads) Toy.args w).2 =
        match written with
        | Some text => <["out.fa" := text]> (files w)
        | None => files w
        end.
Proof.
  assert (H : Args.seed Toy.args <> 0) by (simpl; lia).
  split; [exact H|]. exact (seeded_runs_agree (Toy.fa Toy.reads) Toy.args H).
Defined.

Lemma entries_in_detected_format_witness :
  has_newline "r1" = false /\ has_newline "ACGT" = false /\ has_newline "IIII" = false /\
  lines (fasta_entry "r1" "ACGT") = [">r1"; "ACGT"] /\
  lines (fastq_entry "r1" "ACGT" "IIII") = ["@r1"; "ACGT"; "+"; "IIII"] /\
  lines (fasta_entry "r1" "ACGT" +:+ fasta_entry "r2" "AC") = [">r1"; "ACGT"; ">r2"; "AC"] /\
  lines (fastq_entry "r1" "ACGT" "IIII" +:+ fastq_entry "r2" "AC" "II") =
    ["@r1"; "ACGT"; "+"; "IIII"; "@r2"; "AC"; "+"; "II"].
Proof.
  split; [reflexivity|]. split; [reflexivity|]. split; [reflexivity|].
  pose proof (entries_in_detected_format (py := Toy.toy) "r1" "ACGT" "IIII" eq_refl eq_refl eq_refl)
    as (Hfa & Hfq & Hfa' & Hfq' & _).
  split; [exact Hfa|]. split; [exact Hfq|].
  split; [exact (Hfa' (fasta_entry "r2" "AC")) | exact (Hfq' (fastq_entry "r2" "AC" "II"))].
Defined.

(** The output is not created on every run that detects the format: here the
    input is FASTA, the output cannot be opened, and the run ends with no
    output file. *)
Lemma output_not_created_when_unwritable :
  detect_format (Toy.unwritable Toy.reads) (Args.input Toy.args) = Ok "fasta" /\
  (process_file (Toy.unwritable Toy.reads) Toy.args Toy.w0).1 = SysExit 1 /\
  files (process_file (Toy.unwritable Toy.reads) Toy.args Toy.w0).2 !! Args.output Toy.args = None.
Proof. vm_compute. repeat split. Qed.

(** ** Further runs *)

Example upper_fastq : upper "fastq" = "FASTQ".
Proof. reflexivity. Qed.

Example str_int_examples : str_int 0 = "0" /\ str_int 10000 = "10000" /\ str_int (-3) = "-3".
Proof. repeat split. Qed.

Example endswith_examples :
  endswith "reads.fq.gz" ".gz" = true /\ endswith "reads.fq" ".gz" = false /\ endswith "gz" ".gz" = false.
Proof. repeat split. Qed.

Example lines_example : lines (">r1" +:+ newline +:+ "ACGT" +:+ newline) = [">r1"; "ACGT"].
Proof. reflexivity. Qed.

Example truediv_examples :
  truediv 1 2 = Ok 0.5%float /\ truediv 0 7 = Ok 0%float /\ truediv 3 3 = Ok 1%float.
Proof. repeat split. Qed.

Example run_fasta :
  let r := process_file (Toy.fa Toy.reads) Toy.args Toy.w0 in
  r.1 = Returned /\ stderr r.2 = [] /\
  stdout r.2 =
    [ "----------------------------------------";
      "Processing Complete";
      "Input type:                    FASTA";
      "Total Raw Reads:               4";
      "Reads >= 4bp:                3";
      "Retained Reads (<float>% target): 2";
      "Actual Retention Ratio:        <float>%";
      "----------------------------------------" ].
Proof. vm_compute. repeat split. Qed.

Example run_read_error_fastq :
  let r := process_file Toy.fq_read_error Toy.args Toy.w0 in
  r.1 = SysExit 1 /\ stdout r.2 = [] /\ stderr r.2 = ["Error: Input/output error"] /\
  files r.2 !! "out.fa" =
    Some ("@q1" +:+ newline +:+ "ACGTAC" +:+ newline +:+ "+" +:+ newline +:+ "IIIIII" +:+ newline).
Proof. vm_compute. repeat split. Qed.

Example run_empty_input :
  let r := process_file Toy.empty_input Toy.args Toy.w0 in
  r.1 = SysExit 1 /\ stdout r.2 = [] /\
  stderr r.2 = ["Error: Cannot detect file format (not FASTA/FASTQ)"] /\
  files r.2 = ∅.
Proof. vm_compute. repeat split. Qed.

(** without a seed, the decisions follow the state the generator is in *)
Example unseeded_runs_differ :
  let unseeded := Args.mk "in.fa" "out.fa" 50 4 0 in
  files (process_file (Toy.fa Toy.reads) unseeded (mkWorld ∅ [] [] true)).2 !! "out.fa" <>
  files (process_file (Toy.fa Toy.reads) unseeded (mkWorld ∅ [] [] false)).2 !! "out.fa".
Proof. vm_compute. discriminate. Qed.

Example length_equal_to_min_len_passes :
  passed_length_filter (final (body_fasta 4 0.5 ("r1", "ACGT")) (initial (py := Toy.toy) true)) = 1.
Proof. reflexivity. Qed.

(** * Further properties of the run *)

(** ** Definitions *)

(** a reader that yields the records of [l] and then goes on as [rest] *)
Definition followed_by {R : Type} (l : list R) (rest : records R) : records R :=
  foldr Next rest l.

(** the text written when every record of a list is retained *)
Definition fasta_file (l : list fasta_record) : string :=
  join (map (fun rec => (fasta_view rec).2) l).

Definition fastq_file (l : list fastq_record) : string :=
  join (map (fun rec => (fastq_view rec).2) l).

(** the name and the sequence hold no line break, as in a record decoded from
    the lines of a file *)
Definition one_line_fasta (rec : fasta_record) : bool :=
  let '(name, seq) := rec in negb (has_newline name) && negb (has_newline seq).

Definition one_line_fastq (rec : fastq_record) : bool :=
  let '(name, seq, qual) := rec in
  negb (has_newline name) && negb (has_newline seq) && negb (has_newline qual).

Definition one_line_fields (reader : records fastq_record + records fasta_record) : bool :=
  match reader with
  | inl reader => forallb one_line_fastq (yielded reader)
  | inr reader => forallb one_line_fasta (yielded reader)
  end.

(** the lines of an entry: four in FASTQ, two in FASTA *)
Definition lines_per_entry (reader : records fastq_record + records fasta_record) : Z :=
  match reader with
  | inl _ => 4
  | inr _ => 2
  end.

(** ** Strings *)

Lemma length_append (s t : string) :
  String.length (s +:+ t) = (String.length s + String.length t)%nat.
Proof. induction s as [|c s IH]; [reflexivity|]. rewrite append_cons. simpl. now rewrite IH. Qed.

Lemma substring_all (s : string) : String.substring 0 (String.length s) s = s.
Proof. induction s as [|c s IH]; [reflexivity|]. simpl. now rewrite IH. Qed.

Lemma substring_append (pre suf : string) :
  String.substring (String.length pre) (String.length suf) (pre +:+ suf) = suf.
Proof. induction pre as [|c pre IH]; [apply substring_all|]. rewrite append_cons. exact IH. Qed.

Lemma substring_split (s : string) (n : nat) :
  (n <= String.length s)%nat ->
  s = String.substring 0 n s +:+ String.substring n (String.length s - n) s.
Proof.
  revert n. induction s as [|c s IH]; intros [|n] Hn; simpl in *; try lia.
  - reflexivity.
  - now rewrite substring_all.
  - rewrite append_cons. f_equal. apply IH. lia.
Qed.

(** [s.endswith(suffix)] holds exactly of the texts that end with [suffix] *)
Lemma endswith_spec (s suffix : string) :
  endswith s suffix = true <-> exists pre, s = pre +:+ suffix.
Proof.
  unfold endswith. split.
  - destruct (Nat.leb_spec (String.length suffix) (String.length s)) as [Hle|]; [|discriminate].
    intros H. apply String.eqb_eq in H.
    exists (String.substring 0 (String.length s - String.length suffix) s).
    pose proof (substring_split s (String.length s - String.length suffix)) as Hs.
    replace (String.length s - (String.length s - String.length suffix))%nat
      with (String.length suffix) in Hs by lia.
    rewrite H in Hs. apply Hs. lia.
  - intros [pre ->]. rewrite length_append.
    destruct (Nat.leb_spec (String.length suffix) (String.length pre + String.length suffix))
      as [_|]; [|lia].
    replace (String.length pre + String.length suffix - String.length suffix)%nat
      with (String.length pre) by lia.
    rewrite substring_append. apply String.eqb_refl.
Qed.

(** ** Floats *)

Lemma SFleb_ltb_trans (a b c : spec_float) :
  SFleb a b = true -> SFltb b c = true -> SFltb a c = true.
Proof.
  unfold SFleb, SFltb.
  destruct a as [[|]|[|]| |[|] ma ea], b as [[|]|[|]| |[|] mb eb], c as [[|]|[|]| |[|] mc ec];
    simpl; try congruence.
  all: destruct (Z.compare_spec ea eb), (Z.compare_spec eb ec), (Z.compare_spec ea ec);
    try congruence; try lia.
  all: rewrite ?Pos.compare_cont_spec; simpl.
  all: destruct (Pos.compare_spec ma mb), (Pos.compare_spec mb mc), (Pos.compare_spec ma mc);
    simpl; try congruence; try lia.
Qed.

(** a float that is not negative is below no float that is not positive *)
Lemma ltb_not_positive (r p : float) :
  (0 <=? r)%float = true -> (0 <? p)%float = false -> (r <? p)%float = false.
Proof.
  intros Hr Hp. destruct (r <? p)%float eqn:E; [|reflexivity].
  rewrite <- Hp. rewrite FloatAxioms.leb_spec in Hr. rewrite FloatAxioms.ltb_spec in E |- *.
  symmetry. exact (SFleb_ltb_trans _ _ _ Hr E).
Qed.

Lemma Prim2SF_100 : exists m e, Prim2SF 100 = S754_finite false m e.
Proof. eexists _, _. vm_compute. reflexivity. Qed.

(** a rounded number is above zero only with a positive sign *)
Lemma binary_round_aux_sign (sx : bool) (mx ex : Z) (lx : SpecFloat.location) :
  SFltb (S754_zero false) (binary_round_aux prec emax sx mx ex lx) = true -> sx = false.
Proof.
  unfold binary_round_aux.
  destruct (shr_fexp prec emax mx ex lx) as [mrs' e'].
  destruct (shr_fexp prec emax _ e' loc_Exact) as [mrs'' e''].
  destruct (shr_m mrs'') as [|m|m]; [| destruct (Z.leb e'' (emax - prec)) |];
    destruct sx; unfold SFltb; simpl; congruence.
Qed.

(** dividing by 100 makes no float positive: zero, a negative float and NaN
    stay so *)
Lemma div_100_not_positive (x : float) :
  (0 <? x)%float = false -> (0 <? x / 100)%float = false.
Proof.
  intros Hx. destruct (0 <? x / 100)%float eqn:E; [|reflexivity].
  rewrite <- Hx. rewrite FloatAxioms.ltb_spec in E |- *.
  rewrite FloatAxioms.div_spec in E. unfold SF64div in E.
  destruct Prim2SF_100 as (m & e & H100). rewrite H100 in E.
  change (Prim2SF 0) with (S754_zero false) in E |- *.
  destruct (Prim2SF x) as [s|s| |s mx ex]; simpl in E |- *.
  - destruct s; discriminate E.
  - destruct s; [discriminate E|reflexivity].
  - discriminate E.
  - destruct (SFdiv_core_binary prec emax (Z.pos mx) ex (Z.pos m) e) as [[mz ez] lz].
    apply binary_round_aux_sign in E. rewrite xorb_false_r in E. subst s. reflexivity.
Qed.

Section More.

Context {py : Runtime}.

(** ** Detection *)

(** X1: [detect_format] returns ["fasta"] only for a readable input that
    starts with ['>'] and ["fastq"] only for one that starts with ['@'], and
    returns nothing else; an exception of [open] or [gzip.open] comes out of
    it unchanged, and [process_file] then prints its message after
    ["Error: "] and exits with code 1, leaving the files and the generator as
    the seeding left them. *)
Theorem detect_format_inversion (env : environment) (args : Args.t) (w : world) :
  let filename := Args.input args in
  let opener := if endswith filename ".gz" then gzip_open_rt env else open_rt env in
  (forall filetype,
     detect_format env filename = Ok filetype <->
     exists c rest,
       opener filename = Ok (String c rest) /\
       ((c = ">"%char /\ filetype = "fasta") \/ (c = "@"%char /\ filetype = "fastq"))) /\
  (forall e,
     detect_format env filename = Raise e ->
     opener filename = Raise e \/ e = ValueError "Cannot detect file format (not FASTA/FASTQ)") /\
  (forall e,
     opener filename = Raise e ->
     detect_format env filename = Raise e /\
     process_file env args w = (SysExit 1, print_stderr ("Error: " +:+ str e) (seeded args w))).
Proof.
  intros filename opener. split; [|split].
  - intros filetype. unfold detect_format. fold filename. fold opener.
    destruct (opener filename) as [[|c rest]|e]; simpl.
    + split; [discriminate|]. intros (c & rest & H & _). discriminate H.
    + destruct (Ascii.eqb_spec c ">") as [->|Hgt]; [|destruct (Ascii.eqb_spec c "@") as [->|Hat]];
        simpl; split.
      * intros [= <-]. exists ">"%char, rest. auto.
      * intros (c & rest' & [= <- _] & [[_ ->]|[Hc _]]); [reflexivity|discriminate Hc].
      * intros [= <-]. exists "@"%char, rest. auto.
      * intros (c & rest' & [= <- _] & [[Hc _]|[_ ->]]); [discriminate Hc|reflexivity].
      * discriminate.
      * intros (c' & rest' & [= <- _] & [[Hc _]|[Hc _]]); contradiction.
    + split; [discriminate|]. intros (c & rest & H & _). discriminate H.
  - intros e. unfold detect_format. fold filename. fold opener.
    destruct (opener filename) as [text|e']; [|intros [= <-]; now left].
    destruct (String.eqb (read1 text) ">"); [discriminate|].
    destruct (String.eqb (read1 text) "@"); [discriminate|].
    intros [= <-]. now right.
  - intros e He.
    assert (Hd : detect_format env filename = Raise e).
    { unfold detect_format. fold filename. fold opener. rewrite He. reflexivity. }
    split; [exact Hd|]. apply process_file_detect. exact Hd.
Qed.

(** X2: whether the input is read through [gzip.open] or through [open] is
    decided by its name alone: [detect_format] depends on [gzip.open] only
    when the name ends with [".gz"], and on [open] only otherwise. *)
Theorem detect_format_opener_by_name (env env' : environment) (filename : string) :
  ((exists pre, filename = pre +:+ ".gz") ->
   gzip_open_rt env' filename = gzip_open_rt env filename ->
   detect_format env' filename = detect_format env filename) /\
  (~ (exists pre, filename = pre +:+ ".gz") ->
   open_rt env' filename = open_rt env filename ->
   detect_format env' filename = detect_format env filename).
Proof.
  split; intros Hname Hsame; unfold detect_format.
  - apply endswith_spec in Hname. rewrite Hname, Hsame. reflexivity.
  - destruct (endswith filename ".gz") eqn:E.
    + destruct Hname. apply endswith_spec. exact E.
    + rewrite Hsame. reflexivity.
Qed.

(** ** Files and streams *)

(** X3: a run writes no file but [args.output], only appends to the two
    streams, at most one line to the error stream, and ends by returning or
    by [sys.exit(1)]. *)
Theorem only_the_output_is_written (env : environment) (args : Args.t) (w : world) :
  let r := process_file env args w in
  (forall path, path <> Args.output args -> files r.2 !! path = files w !! path) /\
  (exists printed, stdout r.2 = stdout w ++ printed) /\
  (exists printed, stderr r.2 = stderr w ++ printed /\ (length printed <= 1)%nat) /\
  (r.1 = Returned \/ r.1 = SysExit 1).
Proof.
  intros r. subst r. destruct (seeded_streams args w) as [Hout Herr].
  rewrite process_file_eq. cbv zeta.
  assert (Hfail : forall e,
    let r := (SysExit 1, print_stderr ("Error: " +:+ str e) (seeded args w)) in
    (forall path, path <> Args.output args -> files r.2 !! path = files w !! path) /\
    (exists printed, stdout r.2 = stdout w ++ printed) /\
    (exists printed, stderr r.2 = stderr w ++ printed /\ (length printed <= 1)%nat) /\
    (r.1 = Returned \/ r.1 = SysExit 1)).
  { intros e. simpl. rewrite files_seeded, Hout, Herr. split; [reflexivity|].
    split; [exists []; now rewrite app_nil_r|]. split; [|now right].
    eexists. split; [reflexivity|]. simpl. lia. }
  destruct (detect_format env (Args.input args)) as [filetype|e]; [|apply Hfail].
  destruct (make_reader env filetype (Args.input args)) as [reader|e]; [|apply Hfail].
  destruct (open_w env (Args.output args)) as [u|e]; [|apply Hfail].
  destruct (interrupted reader) as [e|]; simpl; rewrite files_seeded, Hout, Herr.
  - split; [|split; [|split]].
    + intros path Hp. rewrite !lookup_insert_ne by congruence. reflexivity.
    + exists []. now rewrite app_nil_r.
    + eexists. split; [reflexivity|]. simpl. lia.
    + now right.
  - split; [|split; [|split]].
    + intros path Hp. rewrite !lookup_insert_ne by congruence. reflexivity.
    + eexists. reflexivity.
    + exists []. split; [now rewrite app_nil_r|]. simpl. lia.
    + now left.
Qed.

(** ** The counters and the output *)

(** the text of an entry is [n] lines, whatever follows it *)
Definition entry_of_lines (n : nat) (v : string * string) : Prop :=
  forall rest, length (lines (v.2 +:+ rest)) = (n + length (lines rest))%nat.

Lemma lines_join (n : nat) (k : list (string * string)) :
  Forall (entry_of_lines n) k -> length (lines (join (map snd k))) = (n * length k)%nat.
Proof.
  induction 1 as [|v k Hv _ IH]; simpl; [lia|].
  rewrite (Hv (join (map snd k))), IH. lia.
Qed.

Lemma entry_of_lines_fasta (rec : fasta_record) :
  one_line_fasta rec = true -> entry_of_lines 2 (fasta_view rec).
Proof.
  destruct rec as [name seq]. simpl. intros H.
  apply andb_true_iff in H as [Hn Hs]. apply negb_true_iff in Hn, Hs.
  intros rest. change (_.2 +:+ rest) with (fasta_entry name seq +:+ rest).
  rewrite lines_fasta_entry by assumption. reflexivity.
Qed.

Lemma entry_of_lines_fastq (rec : fastq_record) :
  one_line_fastq rec = true -> entry_of_lines 4 (fastq_view rec).
Proof.
  destruct rec as [[name seq] qual]. simpl. intros H.
  apply andb_true_iff in H as [H Hq]. apply andb_true_iff in H as [Hn Hs].
  apply negb_true_iff in Hn, Hs, Hq.
  intros rest. change (_.2 +:+ rest) with (fastq_entry name seq qual +:+ rest).
  rewrite lines_fastq_entry by assumption. reflexivity.
Qed.

Lemma Forall_views {R : Type} (f : R -> bool) (view : R -> string * string)
    (P : string * string -> Prop) (l : list R) :
  (forall rec, f rec = true -> P (view rec)) ->
  forallb f l = true -> Forall P (map view l).
Proof.
  intros Hf. induction l as [|rec l IH]; simpl; intros H; [constructor|].
  apply andb_true_iff in H as [Hrec Hl]. constructor; auto.
Qed.

Lemma Forall_kept (P : string * string -> Prop) (min_len : Z) (probability : float)
    (l : list (string * string)) (g : rng_state) :
  Forall P l -> Forall P (kept min_len probability l g).
Proof.
  intros Hl. apply Forall_forall. intros v Hv.
  rewrite Forall_forall in Hl. apply Hl.
  eapply elem_of_sublist; [exact Hv|apply kept_sublist].
Qed.

(** X4: when the names, sequences and quality strings hold no line break, as
    in records decoded from the lines of a file, the text written by the loop
    has two lines for each retained record in FASTA and four in FASTQ, so that
    [retained_reads] can be read off the output; and the generator has been
    drawn from [passed_length_filter] times. *)
Theorem counters_match_the_output (min_len : Z) (probability : float)
    (reader : records fastq_record + records fasta_record) (g : rng_state) :
  one_line_fields reader = true ->
  let s' := final (loop min_len probability reader) (initial g) in
  Z.of_nat (length (lines (fout s'))) = lines_per_entry reader * retained_reads s' /\
  rng s' = advance (Z.to_nat (passed_length_filter s')) g.
Proof.
  intros Hclean s'. subst s'. rewrite loop_final. unfold after. simpl. split.
  - set (k := kept min_len probability (observed reader) g).
    assert (Hk : Forall (entry_of_lines (Z.to_nat (lines_per_entry reader))) k).
    { apply Forall_kept. destruct reader as [reader|reader]; simpl in *.
      - apply (Forall_views one_line_fastq); [apply entry_of_lines_fastq|exact Hclean].
      - apply (Forall_views one_line_fasta); [apply entry_of_lines_fasta|exact Hclean]. }
    change (EmptyString +:+ join (map snd k)) with (join (map snd k)).
    rewrite (lines_join _ _ Hk). destruct reader; simpl; lia.
  - change (0 + ?x) with x. rewrite Nat2Z.id. reflexivity.
Qed.

Lemma lines_fasta_file (l : list fasta_record) :
  forallb one_line_fasta l = true ->
  lines (fasta_file l) = flat_map (fun rec => [String ">" rec.1; rec.2]) l.
Proof.
  induction l as [|[name seq] l IH]; intros H; [reflexivity|]. simpl in H.
  apply andb_true_iff in H as [H Hl]. apply andb_true_iff in H as [Hn Hs].
  apply negb_true_iff in Hn, Hs.
  change (fasta_file ((name, seq) :: l)) with (fasta_entry name seq +:+ fasta_file l).
  rewrite lines_fasta_entry, (IH Hl) by assumption. reflexivity.
Qed.

Lemma lines_fastq_file (l : list fastq_record) :
  forallb one_line_fastq l = true ->
  lines (fastq_file l) = flat_map (fun rec => [String "@" rec.1.1; rec.1.2; "+"; rec.2]) l.
Proof.
  induction l as [|[[name seq] qual] l IH]; intros H; [reflexivity|]. simpl in H.
  apply andb_true_iff in H as [H Hl]. apply andb_true_iff in H as [H Hq].
  apply andb_true_iff in H as [Hn Hs]. apply negb_true_iff in Hn, Hs, Hq.
  change (fastq_file ((name, seq, qual) :: l))
    with (fastq_entry name seq qual +:+ fastq_file l).
  rewrite lines_fastq_entry, (IH Hl) by assumption. reflexivity.
Qed.

(** X5: the text of the output determines the records written: two lists of
    records without line breaks in their fields that give the same FASTA
    text, or the same FASTQ text, are the same list. *)
Theorem output_determines_records :
  (forall l1 l2 : list fasta_record,
     forallb one_line_fasta l1 = true -> forallb one_line_fasta l2 = true ->
     fasta_file l1 = fasta_file l2 -> l1 = l2) /\
  (forall l1 l2 : list fastq_record,
     forallb one_line_fastq l1 = true -> forallb one_line_fastq l2 = true ->
     fastq_file l1 = fastq_file l2 -> l1 = l2).
Proof.
  split.
  - intros l1 l2 H1 H2 Heq. apply (f_equal lines) in Heq.
    rewrite (lines_fasta_file l1 H1), (lines_fasta_file l2 H2) in Heq. clear H1 H2.
    revert l2 Heq. induction l1 as [|[n1 s1] l1 IH]; intros [|[n2 s2] l2] Heq;
      simpl in Heq; try discriminate; [reflexivity|].
    injection Heq as -> -> Heq. f_equal. apply IH, Heq.
  - intros l1 l2 H1 H2 Heq. apply (f_equal lines) in Heq.
    rewrite (lines_fastq_file l1 H1), (lines_fastq_file l2 H2) in Heq. clear H1 H2.
    revert l2 Heq. induction l1 as [|[[n1 s1] q1] l1 IH]; intros [|[[n2 s2] q2] l2] Heq;
      simpl in Heq; try discriminate; [reflexivity|].
    injection Heq as -> -> -> Heq. f_equal. apply IH, Heq.
Qed.

(** ** The settings that are not checked *)

Lemma kept_not_positive (min_len : Z) (probability : float) (l : list (string * string))
    (g : rng_state) :
  unit_interval py -> (0 <? probability)%float = false -> kept min_len probability l g = [].
Proof.
  intros Hu Hp. revert g. induction l as [|v l IH]; intros g; [reflexivity|].
  rewrite kept_cons, (ltb_not_positive _ _ (proj1 (Hu g)) Hp), !IH.
  destruct (min_len <=? len v.1); reflexivity.
Qed.

(** X6: with a minimum length that is zero or negative and a probability of
    at least one, when [random.random()] returns floats of [[0, 1)], the loop
    writes every record it reads, in the order of the input, and the three
    counters are equal to the number of records. *)
Theorem everything_is_retained (min_len : Z) (probability : float)
    (reader : records fastq_record + records fasta_record) (g : rng_state) :
  unit_interval py -> min_len <= 0 -> (1 <=? probability)%float = true ->
  let s' := final (loop min_len probability reader) (initial g) in
  fout s' = join (map snd (observed reader)) /\
  total_reads s' = Z.of_nat (length (observed reader)) /\
  passed_length_filter s' = total_reads s' /\
  retained_reads s' = total_reads s'.
Proof.
  intros Hu Hm Hp s'. subst s'. rewrite loop_final. unfold after. simpl.
  rewrite (kept_one _ _ _ _ Hu Hp), (qualifying_zero _ _ Hm). repeat split.
Qed.

(** X7: the percentage is not checked against its range: when
    [random.random()] returns floats of [[0, 1)], a percentage that is zero,
    negative or NaN retains nothing, and a run that opens the output leaves it
    empty, while the draws are taken all the same. *)
Theorem percent_not_positive_retains_nothing (env : environment) (args : Args.t) (w : world)
    (filetype : string) (reader : records fastq_record + records fasta_record) :
  unit_interval py ->
  (0 <? Args.percent args)%float = false ->
  detect_format env (Args.input args) = Ok filetype ->
  make_reader env filetype (Args.input args) = Ok reader ->
  open_w env (Args.output args) = Ok tt ->
  let g := random_state (seeded args w) in
  let s' := final (loop (Args.length args) (Args.percent args / 100)%float reader) (initial g) in
  let q := List.filter (fun v => Args.length args <=? len v.1) (observed reader) in
  retained_reads s' = 0 /\
  passed_length_filter s' = Z.of_nat (length q) /\
  files (process_file env args w).2 !! Args.output args = Some EmptyString /\
  random_state (process_file env args w).2 = advance (length q) g.
Proof.
  intros Hu Hp Hd Hr Ho g s' q. subst s' g.
  destruct (process_file_opened env args w filetype reader Hd Hr Ho) as [Hf Hg].
  rewrite Hf, Hg, lookup_insert_eq, loop_final. unfold after. simpl.
  rewrite (kept_not_positive _ _ _ _ Hu (div_100_not_positive _ Hp)). repeat split.
Qed.

(** ** An input that breaks off *)

Lemma for_each_followed_by {R : Type} (l : list R) (rest : records R) (b : R -> M unit)
    (s : state) :
  final (for_each (followed_by l rest) b) s =
    final (for_each rest b) (final (for_each (of_list l) b) s).
Proof.
  revert s. induction l as [|rec l IH]; intros s; [reflexivity|].
  simpl. rewrite !final_bind. apply IH.
Qed.

Lemma for_each_cut {R : Type} (l : list R) (e : exn) (b : R -> M unit) (s : state) :
  final (for_each (followed_by l (Broken e)) b) s = final (for_each (of_list l) b) s.
Proof. rewrite for_each_followed_by. reflexivity. Qed.

(** X8: when the reader raises after it has yielded some records, the loop
    leaves the counters, the generator and the text written as a run over
    these records alone would; and a run over any input that starts with the
    same records goes on from there, so that the text written before the
    exception is the start of the text written for the longer input. *)
Theorem interrupted_loop_is_a_prefix (min_len : Z) (probability : float) (e : exn)
    (s : state) :
  (forall (l : list fastq_record) (rest : records fastq_record),
     let run reader := final (loop min_len probability (inl reader)) in
     let cut := run (followed_by l (Broken e)) s in
     cut = run (of_list l) s /\
     run (followed_by l rest) s = run rest cut /\
     exists text, fout (run (followed_by l rest) s) = fout cut +:+ text) /\
  (forall (l : list fasta_record) (rest : records fasta_record),
     let run reader := final (loop min_len probability (inr reader)) in
     let cut := run (followed_by l (Broken e)) s in
     cut = run (of_list l) s /\
     run (followed_by l rest) s = run rest cut /\
     exists text, fout (run (followed_by l rest) s) = fout cut +:+ text).
Proof.
  split; intros l rest run cut; subst run cut; cbv beta; simpl loop.
  - rewrite for_each_cut, for_each_followed_by. repeat split.
    change (for_each rest (body_fastq min_len probability))
      with (loop min_len probability (inl rest)).
    rewrite loop_final. eexists. reflexivity.
  - rewrite for_each_cut, for_each_followed_by. repeat split.
    change (for_each rest (body_fasta min_len probability))
      with (loop min_len probability (inr rest)).
    rewrite loop_final. eexists. reflexivity.
Qed.

(** ** The numbers of the report *)

(** X9: on a run without a fatal error the report gives the true counts: the
    number of records read, the number of those with [len(seq) >= min_len],
    and the number of records written; its format line reads FASTA or FASTQ;
    and the ratio line follows exactly when a record was read. *)
Theorem report_gives_the_counts (env : environment) (args : Args.t) (w : world)
    (filetype : string) (reader : records fastq_record + records fasta_record) :
  detect_format env (Args.input args) = Ok filetype ->
  make_reader env filetype (Args.input args) = Ok reader ->
  open_w env (Args.output args) = Ok tt ->
  interrupted reader = None ->
  let min_len := Args.length args in
  let probability := (Args.percent args / 100)%float in
  let g := random_state (seeded args w) in
  let l := observed reader in
  let q := List.filter (fun v => min_len <=? len v.1) l in
  let k := map fst (List.filter (fun vr => (vr.2 <? probability)%float)
                      (zip q (draws (length q) g))) in
  let r := process_file env args w in
  r.1 = Returned /\
  (upper filetype = "FASTA" \/ upper filetype = "FASTQ") /\
  exists ratio_line,
    stdout r.2 = stdout w ++
      [ repeat_str "-" 40;
        "Processing Complete";
        "Input type:                    " +:+ upper filetype;
        "Total Raw Reads:               " +:+ str_int (Z.of_nat (length l));
        "Reads >= " +:+ str_int min_len +:+ "bp:                " +:+ str_int (Z.of_nat (length q));
        "Retained Reads (" +:+ repr_float (Args.percent args) +:+ "% target): "
          +:+ str_int (Z.of_nat (length k)) ]
      ++ ratio_line ++ [ repeat_str "-" 40 ] /\
    (l = [] -> ratio_line = []) /\
    (l <> [] ->
     exists ratio,
       truediv (Z.of_nat (length k)) (Z.of_nat (length l)) = Ok ratio /\
       ratio_line = [ "Actual Retention Ratio:        " +:+ format_2f (ratio * 100)%float +:+ "%" ]).
Proof.
  intros Hd Hr Ho Hi min_len probability g l q k r. subst r.
  rewrite process_file_eq, Hd, Hr, Ho, Hi. cbv zeta.
  destruct (seeded_streams args w) as [Hout _].
  fold min_len probability g l. change k with (kept min_len probability l g).
  split; [reflexivity|]. split.
  { destruct (detect_format_names env _ _ Hd) as [->| ->]; [now left|now right]. }
  set (st := after min_len probability l (initial g)).
  assert (Hst : total_reads st = Z.of_nat (length l) /\
                passed_length_filter st = Z.of_nat (length q) /\
                retained_reads st = Z.of_nat (length (kept min_len probability l g))).
  { subst st. unfold after. simpl. repeat split. }
  destruct Hst as (Ht & Hp & Hk).
  pose proof (report_some_reads args min_len filetype st) as Hpos.
  pose proof (report_no_reads args min_len filetype st) as Hzero.
  unfold print_stdout, closed, opened. cbn [fst snd stdout]. rewrite Hout. fold st.
  destruct l as [|v l'] eqn:El.
  - exists []. rewrite Hzero by (rewrite Ht; simpl; lia).
    unfold statistics. rewrite Ht, Hp, Hk.
    split; [reflexivity|]. split; [reflexivity|congruence].
  - destruct Hpos as (ratio & Hq & Hrep); [rewrite Ht; simpl length; lia|].
    exists [ "Actual Retention Ratio:        " +:+ format_2f (ratio * 100)%float +:+ "%" ].
    rewrite Hrep. unfold statistics. rewrite Ht, Hp, Hk. rewrite Ht, Hk in Hq.
    split; [reflexivity|]. split; [discriminate|].
    intros _. exists ratio. split; [exact Hq|reflexivity].
Qed.

End More.

(** ** The further properties at concrete runs *)

Lemma counters_match_the_output_witness :
  one_line_fields (inr (of_list Toy.reads)) = true /\
  let s' := final (loop 4 0.5 (inr (of_list Toy.reads))) (initial (py := Toy.toy) true) in
  Z.of_nat (length (lines (fout s'))) = 2 * retained_reads s' /\ retained_reads s' = 2.
Proof.
  split; [reflexivity|]. split; [|reflexivity].
  exact (proj1 (counters_match_the_output (py := Toy.toy) 4 0.5 (inr (of_list Toy.reads)) true
                  eq_refl)).
Defined.

Lemma everything_is_retained_witness :
  unit_interval Toy.toy /\ 0 <= 0 /\ (1 <=? 1)%float = true /\
  fout (final (loop 0 1 (inr (of_list Toy.reads))) (initial (py := Toy.toy) true)) =
    Toy.fasta_text Toy.reads.
Proof.
  split; [exact toy_unit_interval|]. split; [lia|]. split; [reflexivity|].
  exact (proj1 (everything_is_retained (py := Toy.toy) 0 1 (inr (of_list Toy.reads)) true
                  toy_unit_interval (Z.le_refl 0) eq_refl)).
Defined.

Lemma percent_not_positive_retains_nothing_witness :
  let args := Args.mk "in.fa" "out.fa" nan 4 2 in
  unit_interval Toy.toy /\
  (0 <? Args.percent args)%float = false /\
  detect_format (Toy.fa Toy.reads) "in.fa" = Ok "fasta" /\
  make_reader (Toy.fa Toy.reads) "fasta" "in.fa" = Ok (inr (of_list Toy.reads)) /\
  open_w (Toy.fa Toy.reads) "out.fa" = Ok tt /\
  files (process_file (Toy.fa Toy.reads) args Toy.w0).2 !! "out.fa" = Some EmptyString.
Proof.
  split; [exact toy_unit_interval|]. split; [reflexivity|]. split; [reflexivity|].
  split; [reflexivity|]. split; [reflexivity|].
  exact (proj1 (proj2 (proj2
    (percent_not_positive_retains_nothing (Toy.fa Toy.reads) (Args.mk "in.fa" "out.fa" nan 4 2)
       Toy.w0 "fasta" (inr (of_list Toy.reads)) toy_unit_interval eq_refl eq_refl eq_refl
       eq_refl)))).
Defined.

Lemma report_gives_the_counts_witness :
  detect_format (Toy.fa Toy.reads) "in.fa" = Ok "fasta" /\
  make_reader (Toy.fa Toy.reads) "fasta" "in.fa" = Ok (inr (of_list Toy.reads)) /\
  open_w (Toy.fa Toy.reads) "out.fa" = Ok tt /\
  interrupted (inr (of_list Toy.reads) : records fastq_record + records fasta_record) = None /\
  (process_file (Toy.fa Toy.reads) Toy.args Toy.w0).1 = Returned.
Proof.
  split; [reflexivity|]. split; [reflexivity|]. split; [reflexivity|]. split; [reflexivity|].
  exact (proj1 (report_gives_the_counts (Toy.fa Toy.reads) Toy.args Toy.w0 "fasta"
                  (inr (of_list Toy.reads)) eq_refl eq_refl eq_refl eq_refl)).
Defined.

(** a percentage below zero, and an input named as compressed *)
Example negative_percent_run :
  files (process_file (Toy.fa Toy.reads) (Args.mk "in.fa" "out.fa" (-5) 0 2) Toy.w0).2 !! "out.fa"
    = Some EmptyString.
Proof. vm_compute. reflexivity. Qed.

Example gz_name_run :
  (process_file (Toy.fa Toy.reads) (Args.mk "in.fa.gz" "out.fa" 50 4 2) Toy.w0).1 = SysExit 1 /\
  stderr (process_file (Toy.fa Toy.reads) (Args.mk "in.fa.gz" "out.fa" 50 4 2) Toy.w0).2 =
    ["Error: Not a gzipped file"].
Proof. vm_compute. split; reflexivity. Qed.
